(** * atomicshop / addons / process_list : process_list.cpp

    A shallow embedding of the process-list addon: privilege elevation
    ([EnableDebugPrivilege]), the cross-process command-line reader
    ([GetProcessCommandLine]), the cancellation flag
    ([cancelRequested], [RequestCancellation]) and the snapshot
    enumerator ([GetProcessDetails]).

    The Win32 calls the file makes are not part of the program; they are
    gathered in a record [World] of oracles, one field per call site, so
    that every theorem quantifies over all behaviours of the operating
    system.  Everything the program itself owns is explicit state: the
    atomic flag, the text written to [std::wcout], the set of open
    handles, the C++ heap of [new wchar_t[]] blocks, and the trace of
    callback invocations. *)

From stdpp Require Import base option list gmap strings.
From Stdlib Require Import NArith ZArith Strings.Byte Strings.Ascii Lia.

Local Open Scope N_scope.

(** ** Machine types *)

Definition DWORD := N.
Definition USHORT := N.
Definition HANDLE := N.
Definition HMODULE := N.
Definition PVOID := N.
Definition LUID := N.
Definition NTSTATUS := Z.
Definition wchar_t := N.

(** A wide C string is represented by its code units before the
    terminator. *)
Definition wstring := list wchar_t.

Definition L (s : string) : wstring :=
  (fun a => N_of_ascii a) <$> String.list_ascii_of_string s.

Definition STATUS_SUCCESS : NTSTATUS := 0%Z.
Definition ERROR_NOT_ALL_ASSIGNED : DWORD := 1300.
Definition MAX_PATH : N := 260.
Definition sizeof_wchar_t : N := 2.

Record UNICODE_STRING := {
  Length : USHORT;
  MaximumLength : USHORT;
  Buffer : PVOID
}.

Record RTL_USER_PROCESS_PARAMETERS := {
  ImagePathName : UNICODE_STRING;
  CommandLine : UNICODE_STRING
}.

Record PEB := {
  BeingDebugged : N;
  LoaderData : PVOID;
  ProcessParameters : PVOID
}.

Record PROCESS_BASIC_INFORMATION := {
  PebBaseAddress : PVOID;
  UniqueProcessId : N
}.

Record PROCESSENTRY32W := {
  th32ProcessID : DWORD;
  szExeFile : wstring
}.

(** ** The operating system

    [None] stands for the failure value of a call ([FALSE], [NULL] or
    [INVALID_HANDLE_VALUE]).  [GetModuleBaseNameW] receives the caller's
    buffer and returns the number of units copied together with the
    buffer as the call left it.  The two structure reads of
    [ReadProcessMemory] are typed views of the target's memory; the
    third read is a byte range of [memory]. *)

Record World := {
  OpenProcessToken : option HANDLE;
  LookupPrivilegeValue : option LUID;
  AdjustTokenPrivileges : HANDLE → LUID → bool;
  GetLastError_adjust : DWORD;
  CreateToolhelp32Snapshot : option HANDLE;
  Process32 : HANDLE → list PROCESSENTRY32W;
  GetLastError_first : DWORD;
  OpenProcess : DWORD → option HANDLE;
  GetModuleBaseNameW : HANDLE → wstring → N → DWORD * wstring;
  GetModuleHandleW_ntdll : option HMODULE;
  GetProcAddress_NtQueryInformationProcess :
    HMODULE → option (HANDLE → NTSTATUS * PROCESS_BASIC_INFORMATION);
  ReadProcessMemory_PEB : HANDLE → PVOID → option PEB;
  ReadProcessMemory_UPP : HANDLE → PVOID → option RTL_USER_PROCESS_PARAMETERS;
  memory : HANDLE → PVOID → option byte
}.

(** [ReadProcessMemory] with a null [lpNumberOfBytesRead]: the whole
    range is copied or the call fails. *)
Fixpoint read_range (m : PVOID → option byte) (base : PVOID) (n : nat)
  : option (list byte) :=
  match n with
  | O => Some []
  | S n' =>
      match m base, read_range m (N.succ base) n' with
      | Some b, Some bs => Some (b :: bs)
      | _, _ => None
      end
  end.

Definition ReadProcessMemory (w : World) (h : HANDLE) (base : PVOID) (n : N)
  : option (list byte) :=
  read_range (memory w h) base (N.to_nat n).

(** ** Program state *)

(** One byte of a heap block; [None] is a byte never written. *)
Definition cell := option byte.

Inductive pointer :=
  | NULL
  | Ptr (a : nat).

Inductive wcout_item :=
  | WText (s : string)
  | WNum (n : DWORD)
  | Endl.

(** One invocation of the host's callback: the three arguments, and the
    block [cmdline] points to at the time of the call. *)
Record Call := {
  c_pid : DWORD;
  c_process_name : wstring;
  c_cmdline : pointer;
  c_text : option (list cell)
}.

Record State := {
  cancelRequested : bool;
  wcout : list wcout_item;
  handles : list HANDLE;
  heap : gmap nat (list cell);
  calls : list Call
}.

(** [std::atomic<bool> cancelRequested(false);] *)
Definition initial_state : State :=
  {| cancelRequested := false; wcout := []; handles := []; heap := ∅;
     calls := [] |}.

Definition set_cancelRequested (b : bool) (st : State) : State :=
  {| cancelRequested := b; wcout := wcout st; handles := handles st;
     heap := heap st; calls := calls st |}.

Definition set_heap (h : gmap nat (list cell)) (st : State) : State :=
  {| cancelRequested := cancelRequested st; wcout := wcout st;
     handles := handles st; heap := h; calls := calls st |}.

Definition set_handles (hs : list HANDLE) (st : State) : State :=
  {| cancelRequested := cancelRequested st; wcout := wcout st;
     handles := hs; heap := heap st; calls := calls st |}.

Definition print (items : list wcout_item) (st : State) : State :=
  {| cancelRequested := cancelRequested st; wcout := wcout st ++ items;
     handles := handles st; heap := heap st; calls := calls st |}.

Definition record_call (c : Call) (st : State) : State :=
  {| cancelRequested := cancelRequested st; wcout := wcout st;
     handles := handles st; heap := heap st; calls := calls st ++ [c] |}.

Definition open_handle (h : HANDLE) (st : State) : State :=
  set_handles (h :: handles st) st.

Fixpoint remove_first (h : HANDLE) (hs : list HANDLE) : list HANDLE :=
  match hs with
  | [] => []
  | x :: hs' => if (x =? h) then hs' else x :: remove_first h hs'
  end.

Definition CloseHandle (h : HANDLE) (st : State) : State :=
  set_handles (remove_first h (handles st)) st.

(** [new wchar_t[n]]: a fresh block of [n] units, contents
    indeterminate. *)
Definition new_wchar_t (n : N) (st : State) : nat * State :=
  let a := fresh (dom (heap st)) in
  (a, set_heap (<[a := replicate (N.to_nat (sizeof_wchar_t * n)) None]> (heap st)) st).

(** [delete[] p] *)
Definition delete_array (p : pointer) (st : State) : State :=
  match p with
  | NULL => st
  | Ptr a => set_heap (delete a (heap st)) st
  end.

Definition byte_of_N (n : N) : byte :=
  default x00 (Byte.of_N (n mod 256)).

(** The bytes delivered by a read land at the start of the block. *)
Definition write_bytes (bs : list byte) (blk : list cell) : list cell :=
  (Some <$> bs) ++ drop (length bs) blk.

(** [blk[i] = c] on a block of 16-bit units, little endian. *)
Definition write_wchar (i : N) (c : wchar_t) (blk : list cell) : list cell :=
  <[N.to_nat (sizeof_wchar_t * i + 1) := Some (byte_of_N (c / 256))]>
    (<[N.to_nat (sizeof_wchar_t * i) := Some (byte_of_N c)]> blk).

Definition update_block (a : nat) (f : list cell → list cell) (st : State)
  : State :=
  set_heap (alter f a (heap st)) st.

(** [wcsncpy_s(dest, n, src, _TRUNCATE)]: as much of [src] as fits in
    [n] units with the terminator; the previous contents of [dest] are
    overwritten. *)
Definition wcsncpy_s_TRUNCATE (dest : wstring) (n : N) (src : wstring)
  : wstring :=
  take (N.to_nat (n - 1)) src.

(** ** EnableDebugPrivilege (lines 45-68) *)

Definition EnableDebugPrivilege (w : World) (st : State) : bool * State :=
  match OpenProcessToken w with
  | None => (false, st)
  | Some hToken =>
      let st := open_handle hToken st in
      match LookupPrivilegeValue w with
      | None => (false, st)
      | Some luid =>
          if negb (AdjustTokenPrivileges w hToken luid) then (false, st)
          else if GetLastError_adjust w =? ERROR_NOT_ALL_ASSIGNED then (false, st)
          else (true, CloseHandle hToken st)
      end
  end.

(** ** GetProcessCommandLine (lines 70-123)

    The result is the returned [bool], the value left in [*ppszCmdLine],
    the contents left in [szProcessName], and the new state. *)

Definition GetProcessCommandLine (w : World) (dwPid : DWORD)
    (pszCmdLine : pointer) (szProcessName : wstring) (dwNameSize : N)
    (st : State) : bool * pointer * wstring * State :=
  match OpenProcess w dwPid with
  | None => (false, pszCmdLine, szProcessName, st)
  | Some hProcess =>
    let st := open_handle hProcess st in
    let '(copied, szProcessName) :=
      GetModuleBaseNameW w hProcess szProcessName dwNameSize in
    if copied =? 0 then
      (false, pszCmdLine, szProcessName, CloseHandle hProcess st)
    else
    match GetModuleHandleW_ntdll w with
    | None => (false, pszCmdLine, szProcessName, CloseHandle hProcess st)
    | Some hNtDll =>
    match GetProcAddress_NtQueryInformationProcess w hNtDll with
    | None => (false, pszCmdLine, szProcessName, CloseHandle hProcess st)
    | Some pfnNtQueryInformationProcess =>
    let '(status, pbi) := pfnNtQueryInformationProcess hProcess in
    if negb (status =? STATUS_SUCCESS)%Z then
      (false, pszCmdLine, szProcessName, CloseHandle hProcess st)
    else
    match ReadProcessMemory_PEB w hProcess (PebBaseAddress pbi) with
    | None => (false, pszCmdLine, szProcessName, CloseHandle hProcess st)
    | Some peb =>
    match ReadProcessMemory_UPP w hProcess (ProcessParameters peb) with
    | None => (false, pszCmdLine, szProcessName, CloseHandle hProcess st)
    | Some upp =>
    let len := Length (CommandLine upp) in
    let '(a, st) := new_wchar_t (len / sizeof_wchar_t + 1) st in
    match ReadProcessMemory w hProcess (Buffer (CommandLine upp)) len with
    | None =>
        (false, Ptr a, szProcessName,
         CloseHandle hProcess (delete_array (Ptr a) st))
    | Some bytes =>
        let st := update_block a (write_bytes bytes) st in
        let st := update_block a (write_wchar (len / sizeof_wchar_t) 0) st in
        (true, Ptr a, szProcessName, CloseHandle hProcess st)
    end end end end end
  end.

(** ** RequestCancellation (lines 127-129) *)

Definition RequestCancellation (st : State) : State :=
  set_cancelRequested true st.

(** ** GetProcessDetails (lines 131-169) *)

(** [callback(pid, process_name, cmdline)]: the host sees the three
    arguments and whatever block [cmdline] points to. *)
Definition callback (pid : DWORD) (process_name : wstring) (cmdline : pointer)
    (st : State) : State :=
  let text := match cmdline with
              | NULL => None
              | Ptr a => heap st !! a
              end in
  record_call {| c_pid := pid; c_process_name := process_name;
                 c_cmdline := cmdline; c_text := text |} st.

(** The body of the [do ... while] loop (lines 155-165). *)
Definition loop_body (w : World) (pe32 : PROCESSENTRY32W) (st : State)
  : State :=
  let pszCmdLine := NULL in
  let szProcessName := L "<unknown>" in
  let szProcessName :=
    wcsncpy_s_TRUNCATE szProcessName MAX_PATH (szExeFile pe32) in
  let '(ok, pszCmdLine, szProcessName, st) :=
    GetProcessCommandLine w (th32ProcessID pe32) pszCmdLine szProcessName
      MAX_PATH st in
  if ok then
    let st := callback (th32ProcessID pe32) szProcessName pszCmdLine st in
    delete_array pszCmdLine st
  else
    callback (th32ProcessID pe32) szProcessName NULL st.

(** Other parties (the callback itself, or another thread of the host)
    may call [RequestCancellation] while an entry is in flight.  The
    flag is read at one place only, the loop condition, so it is enough
    to know for each entry whether such a call happened before the
    condition following it is evaluated: [env i] says so for the [i]-th
    entry processed (counted from 0). *)
Definition Env := nat → bool.

Definition never : Env := fun _ => false.

Definition in_flight (env : Env) (i : nat) (st : State) : State :=
  if env i then RequestCancellation st else st.

(** [do { body } while (Process32NextW(hSnap, &pe32) && !cancelRequested.load());]
    [pe32] is the entry held by the cursor, [rest] what the snapshot
    still holds after it; the flag is not loaded when [Process32NextW]
    fails. *)
Fixpoint do_while (w : World) (env : Env) (i : nat) (pe32 : PROCESSENTRY32W)
    (rest : list PROCESSENTRY32W) (st : State) : State :=
  let st := in_flight env i (loop_body w pe32 st) in
  match rest with
  | [] => st
  | next :: rest' =>
      if cancelRequested st then st
      else do_while w env (S i) next rest' st
  end.

Definition GetProcessDetails (w : World) (env : Env) (st : State) : State :=
  let '(ok, st) := EnableDebugPrivilege w st in
  if negb ok then
    print [WText "Failed to enable debug privilege."; Endl] st
  else
  match CreateToolhelp32Snapshot w with
  | None => print [WText "Failed to create snapshot."; Endl] st
  | Some hSnap =>
      let st := open_handle hSnap st in
      match Process32 w hSnap with
      | [] =>
          let error := GetLastError_first w in
          let st := print [WText "Error code: "; WNum error; Endl] st in
          let st := CloseHandle hSnap st in
          print [WText "Failed to get first process from snapshot."; Endl] st
      | pe32 :: rest =>
          let st := do_while w env 0 pe32 rest st in
          CloseHandle hSnap st
      end
  end.

(** ** Notions used in the statements *)

(** The name the loop body hands to the reader. *)
Definition snapshot_name (pe32 : PROCESSENTRY32W) : wstring :=
  wcsncpy_s_TRUNCATE (L "<unknown>") MAX_PATH (szExeFile pe32).

(** The reader's call as the loop body makes it for an entry. *)
Definition enrichment (w : World) (pe32 : PROCESSENTRY32W) (st : State)
  : bool * pointer * wstring * State :=
  GetProcessCommandLine w (th32ProcessID pe32) NULL (snapshot_name pe32)
    MAX_PATH st.

Definition succeeded (r : bool * pointer * wstring * State) : bool := r.1.1.1.

(** The loop body run over a list of entries with nothing in between:
    what the enumerator does when no condition is ever evaluated. *)
Definition process_entries (w : World) (es : list PROCESSENTRY32W)
    (st : State) : State :=
  foldl (fun s pe32 => loop_body w pe32 s) st es.

(** Several passes one after the other, each with its own system
    behaviour and its own requests from outside. *)
Definition run_passes (ps : list (World * Env)) (st : State) : State :=
  foldl (fun s p => GetProcessDetails p.1 p.2 s) st ps.

(** The value the flag holds when the loop condition after the
    [k]-th entry is evaluated: it was set before the pass, or one of
    the entries up to [k] saw a request. *)
Fixpoint flag_after (env : Env) (flag : bool) (k : nat) : bool :=
  match k with
  | O => flag || env O
  | S k' => flag_after env flag k' || env (S k')
  end.

(** What a callback can be handed as a command line: nothing, or a
    pointer to a block of written bytes that ends with a zero unit. *)
Definition absent_or_terminated (c : Call) : Prop :=
  (c_cmdline c = NULL ∧ c_text c = None)
  ∨ ∃ a (data : list byte),
      c_cmdline c = Ptr a
      ∧ c_text c = Some ((Some <$> data) ++ [Some x00; Some x00]).

(** The token of the current process is opened and one of the later
    steps of the elevation fails. *)
Definition token_left_open (w : World) : Prop :=
  ∃ hToken,
    OpenProcessToken w = Some hToken
    ∧ (LookupPrivilegeValue w = None
       ∨ ∃ luid, LookupPrivilegeValue w = Some luid
                 ∧ (AdjustTokenPrivileges w hToken luid = false
                    ∨ GetLastError_adjust w = ERROR_NOT_ALL_ASSIGNED)).

(** The reader gets as far as the parameters block [upp] of the process
    it opened as [hProcess] for [dwPid]: steps 1 to 6, lines 71-111. *)
Definition reaches_descriptor (w : World) (dwPid : DWORD) (name : wstring)
    (size : N) (hProcess : HANDLE) (upp : RTL_USER_PROCESS_PARAMETERS)
  : Prop :=
  OpenProcess w dwPid = Some hProcess
  ∧ (GetModuleBaseNameW w hProcess name size).1 ≠ 0
  ∧ ∃ hNtDll pfn pbi peb,
      GetModuleHandleW_ntdll w = Some hNtDll
      ∧ GetProcAddress_NtQueryInformationProcess w hNtDll = Some pfn
      ∧ pfn hProcess = (STATUS_SUCCESS, pbi)
      ∧ ReadProcessMemory_PEB w hProcess (PebBaseAddress pbi) = Some peb
      ∧ ReadProcessMemory_UPP w hProcess (ProcessParameters peb) = Some upp.

(** ** Sample hosts

    A machine with the idle process, the system process and one user
    process (pid 812).  Only pid 812 can be opened.  Its parameters
    block is at 0x2000 and its command line, the six bytes of [cmd] in
    UTF-16, at 0x3000. *)

Definition sample_memory (a : PVOID) : option byte :=
  if a <? 12288 then None
  else [x63; x00; x6d; x00; x64; x00] !! N.to_nat (a - 12288).

Definition sample_entries : list PROCESSENTRY32W :=
  [ {| th32ProcessID := 0; szExeFile := L "[System Process]" |};
    {| th32ProcessID := 4; szExeFile := L "System" |};
    {| th32ProcessID := 812; szExeFile := L "cmd.exe" |} ].

Definition sample_world (token : option HANDLE) (last_error : DWORD)
    (entries : list PROCESSENTRY32W) (module_name : wstring)
    (status : NTSTATUS) (len : USHORT) : World :=
  {| OpenProcessToken := token;
     LookupPrivilegeValue := Some 20;
     AdjustTokenPrivileges := fun _ _ => true;
     GetLastError_adjust := last_error;
     CreateToolhelp32Snapshot := Some 100;
     Process32 := fun _ => entries;
     GetLastError_first := 18;
     OpenProcess := fun pid => if pid =? 812 then Some 200 else None;
     GetModuleBaseNameW := fun _ _ _ =>
       (N.of_nat (length module_name), module_name);
     GetModuleHandleW_ntdll := Some 1;
     GetProcAddress_NtQueryInformationProcess := fun _ =>
       Some (fun _ => (status, {| PebBaseAddress := 4096;
                                  UniqueProcessId := 812 |}));
     ReadProcessMemory_PEB := fun _ a =>
       if a =? 4096
       then Some {| BeingDebugged := 0; LoaderData := 0;
                    ProcessParameters := 8192 |}
       else None;
     ReadProcessMemory_UPP := fun _ a =>
       if a =? 8192
       then Some {| ImagePathName :=
                      {| Length := 0; MaximumLength := 0; Buffer := 0 |};
                    CommandLine :=
                      {| Length := len; MaximumLength := 8;
                         Buffer := 12288 |} |}
       else None;
     memory := fun _ => sample_memory |}.

(** Elevation granted, every step of the reader succeeds for pid 812. *)
Definition w_admin : World :=
  sample_world (Some 50) 0 sample_entries (L "cmd.exe") 0%Z 6.

(** The token cannot be opened: elevation fails. *)
Definition w_denied : World :=
  sample_world None 0 sample_entries (L "cmd.exe") 0%Z 6.

(** The module name of pid 812 reads [CMD.EXE], and the query routine
    then answers STATUS_ACCESS_DENIED. *)
Definition w_query_fails : World :=
  sample_world (Some 50) 0 sample_entries (L "CMD.EXE") (-1073741790)%Z 6.

(** The descriptor of pid 812 reports an odd byte length. *)
Definition w_odd_length : World :=
  sample_world (Some 50) 0 sample_entries (L "cmd.exe") 0%Z 5.

(** The descriptor of pid 812 reports more bytes than are readable. *)
Definition w_short_read : World :=
  sample_world (Some 50) 0 sample_entries (L "cmd.exe") 0%Z 8.

(** A snapshot whose only entry has an empty executable name. *)
Definition w_nameless : World :=
  sample_world (Some 50) 0 [ {| th32ProcessID := 4; szExeFile := [] |} ]
    (L "cmd.exe") 0%Z 6.

(** The token is opened and adjusted, but the system reports that not
    every privilege was assigned. *)
Definition w_not_all_assigned : World :=
  sample_world (Some 50) 1300 sample_entries (L "cmd.exe") 0%Z 6.

(** The descriptor of pid 812 reports a single byte. *)
Definition w_one_byte : World :=
  sample_world (Some 50) 0 sample_entries (L "cmd.exe") 0%Z 1.

(** The snapshot is created but holds no entry. *)
Definition w_empty_snapshot : World :=
  sample_world (Some 50) 0 [] (L "cmd.exe") 0%Z 6.

(** ** Blocks and byte ranges *)

Lemma read_range_length (m : PVOID → option byte) (n : nat) :
  ∀ base bs, read_range m base n = Some bs → length bs = n.
Proof.
  induction n as [|n IH]; intros base bs; simpl.
  - by intros [= <-].
  - destruct (m base) as [b|]; [|done].
    destruct (read_range m (N.succ base) n) as [bs'|] eqn:E; [|done].
    intros [= <-]. simpl. f_equal. by eapply IH.
Qed.

Lemma ReadProcessMemory_length (w : World) (h : HANDLE) (base : PVOID)
    (n : N) (bs : list byte) :
  ReadProcessMemory w h base n = Some bs → length bs = N.to_nat n.
Proof. apply read_range_length. Qed.

(** A block of [2k + 2] bytes that received [pre ++ suf] with [pre] of
    [2k] bytes and [suf] of at most one, then a zero unit at index [k]. *)
Lemma terminate_split (pre suf : list byte) (k : nat) :
  length pre = (2 * k)%nat →
  (length suf ≤ 1)%nat →
  <[(2 * k + 1)%nat := Some x00]>
    (<[(2 * k)%nat := Some x00]>
       (write_bytes (pre ++ suf) (replicate (2 * k + 2) None)))
  = (Some <$> pre) ++ [Some x00; Some x00].
Proof.
  intros Hpre Hsuf. unfold write_bytes.
  rewrite fmap_app, <- app_assoc, drop_replicate, length_app.
  replace (2 * k)%nat with (length (Some <$> pre) + 0)%nat
    by (rewrite length_fmap; lia).
  rewrite insert_app_r.
  replace (length (Some <$> pre) + 0 + 1)%nat
    with (length (Some <$> pre) + 1)%nat by lia.
  rewrite insert_app_r. f_equal.
  rewrite length_fmap, Nat.add_0_r.
  destruct suf as [|b [|b' suf]]; simpl in *; [| |lia].
  - match goal with
    | |- context [replicate ?n None] => replace n with 2%nat by lia
    end.
    done.
  - match goal with
    | |- context [replicate ?n None] => replace n with 1%nat by lia
    end.
    done.
Qed.

Lemma half_length (len : N) :
  N.to_nat len = (2 * N.to_nat (len / 2))%nat
  ∨ N.to_nat len = (2 * N.to_nat (len / 2) + 1)%nat.
Proof.
  pose proof (N.div_mod len 2 ltac:(lia)) as Hdiv.
  pose proof (N.mod_lt len 2 ltac:(lia)) as Hlt.
  remember (len / 2) as q. remember (len mod 2) as r. lia.
Qed.

(** The block built at lines 113-120 from the [len] bytes read. *)
Lemma terminated_block (bs : list byte) (len : N) :
  length bs = N.to_nat len →
  write_wchar (len / sizeof_wchar_t) 0
    (write_bytes bs
       (replicate (N.to_nat (sizeof_wchar_t * (len / sizeof_wchar_t + 1))) None))
  = (Some <$> take (N.to_nat (sizeof_wchar_t * (len / sizeof_wchar_t))) bs)
      ++ [Some x00; Some x00].
Proof.
  intros Hlen. unfold write_wchar, sizeof_wchar_t.
  change (byte_of_N (0 / 256)) with x00. change (byte_of_N 0) with x00.
  set (k := N.to_nat (len / 2)).
  replace (N.to_nat (2 * (len / 2 + 1))) with (2 * k + 2)%nat by lia.
  replace (N.to_nat (2 * (len / 2) + 1)) with (2 * k + 1)%nat by lia.
  replace (N.to_nat (2 * (len / 2))) with (2 * k)%nat by lia.
  rewrite <- (take_drop (2 * k) bs) at 1.
  apply terminate_split.
  - rewrite length_take. destruct (half_length len); lia.
  - rewrite length_drop. destruct (half_length len); lia.
Qed.

Lemma terminated_block_even (bs : list byte) (len : N) :
  length bs = N.to_nat len →
  N.even len = true →
  take (N.to_nat (sizeof_wchar_t * (len / sizeof_wchar_t))) bs = bs.
Proof.
  intros Hlen Hev. apply take_ge. unfold sizeof_wchar_t.
  apply N.even_spec in Hev as [h ->].
  replace (2 * h / 2) with h by (symmetry; rewrite N.mul_comm; apply N.div_mul; lia).
  lia.
Qed.

(** ** What each function leaves alone *)

Section Frames.
Variable w : World.

Lemma EnableDebugPrivilege_frame (st : State) :
  let st' := (EnableDebugPrivilege w st).2 in
  cancelRequested st' = cancelRequested st ∧ wcout st' = wcout st
  ∧ heap st' = heap st ∧ calls st' = calls st.
Proof.
  unfold EnableDebugPrivilege. repeat case_match; simpl; done.
Qed.

Lemma GetProcessCommandLine_frame (dwPid : DWORD) (p : pointer)
    (name : wstring) (size : N) (st : State) :
  let st' := (GetProcessCommandLine w dwPid p name size st).2 in
  cancelRequested st' = cancelRequested st ∧ wcout st' = wcout st
  ∧ calls st' = calls st ∧ handles st' = handles st.
Proof.
  unfold GetProcessCommandLine, new_wchar_t.
  repeat case_match; simplify_eq; simpl; repeat split;
    try done; by rewrite N.eqb_refl.
Qed.

(** A failed read leaves the heap as it found it; the pointer it
    leaves behind is the caller's or one that is no longer allocated. *)
Lemma GetProcessCommandLine_false (dwPid : DWORD) (p : pointer)
    (name : wstring) (size : N) (st : State) p' name' st' :
  GetProcessCommandLine w dwPid p name size st = (false, p', name', st') →
  heap st' = heap st
  ∧ (p' = p ∨ ∃ a, p' = Ptr a ∧ heap st' !! a = None).
Proof.
  unfold GetProcessCommandLine, new_wchar_t.
  repeat case_match; intros; simplify_eq; simpl; try (split; [done|by left]).
  assert (heap st !! fresh (dom (heap st)) = None) as Hfresh
    by (apply not_elem_of_dom, is_fresh).
  rewrite delete_insert_eq, delete_id by done.
  split; [done|]. right. eauto.
Qed.

(** A successful read went through every step and left one new
    block. *)
Lemma GetProcessCommandLine_true (dwPid : DWORD) (p : pointer)
    (name : wstring) (size : N) (st : State) p' name' st' :
  GetProcessCommandLine w dwPid p name size st = (true, p', name', st') →
  ∃ hProcess addr upp bytes a,
    OpenProcess w dwPid = Some hProcess
    ∧ ReadProcessMemory_UPP w hProcess addr = Some upp
    ∧ ReadProcessMemory w hProcess (Buffer (CommandLine upp))
        (Length (CommandLine upp)) = Some bytes
    ∧ p' = Ptr a
    ∧ heap st !! a = None
    ∧ heap st' =
        <[a := write_wchar (Length (CommandLine upp) / sizeof_wchar_t) 0
                 (write_bytes bytes
                    (replicate
                       (N.to_nat
                          (sizeof_wchar_t
                           * (Length (CommandLine upp) / sizeof_wchar_t + 1)))
                       None))]> (heap st).
Proof.
  unfold GetProcessCommandLine, new_wchar_t.
  repeat case_match; intros; simplify_eq; simpl.
  do 5 eexists. repeat split; try eassumption.
  - apply not_elem_of_dom, is_fresh.
  - by rewrite !alter_insert_eq.
Qed.
(** The name buffer after the call: untouched when the process cannot
    be opened, otherwise as the module-name call left it, whichever
    step fails afterwards. *)
Lemma GetProcessCommandLine_name (dwPid : DWORD) (p : pointer)
    (name : wstring) (size : N) (st : State) :
  (GetProcessCommandLine w dwPid p name size st).1.2 =
    match OpenProcess w dwPid with
    | None => name
    | Some hProcess => (GetModuleBaseNameW w hProcess name size).2
    end.
Proof.
  unfold GetProcessCommandLine, new_wchar_t.
  repeat case_match; simplify_eq; done.
Qed.
End Frames.

(** ** One entry of the snapshot *)

Section Enumeration.
Variable w : World.

(** Every iteration appends exactly one call, for the pid of its
    entry, and does not touch the flag. *)
Lemma loop_body_call (pe32 : PROCESSENTRY32W) (st : State) :
  ∃ c, calls (loop_body w pe32 st) = calls st ++ [c]
       ∧ c_pid c = th32ProcessID pe32
       ∧ cancelRequested (loop_body w pe32 st) = cancelRequested st.
Proof.
  unfold loop_body.
  pose proof (GetProcessCommandLine_frame w (th32ProcessID pe32) NULL
                (wcsncpy_s_TRUNCATE (L "<unknown>") MAX_PATH (szExeFile pe32))
                MAX_PATH st) as Hframe.
  destruct (GetProcessCommandLine _ _ _ _ _ _) as [[[ok p] name] st'].
  simpl in Hframe. destruct Hframe as (Hc & _ & Hcalls & _).
  destruct ok; [destruct p|]; simpl; rewrite Hcalls, Hc; eauto.
Qed.

Lemma in_flight_flag (env : Env) (i : nat) (st : State) :
  cancelRequested (in_flight env i st) = cancelRequested st || env i.
Proof.
  unfold in_flight. destruct (env i); simpl; [|by rewrite orb_false_r].
  by rewrite orb_true_r.
Qed.

Lemma flag_after_shift (env : Env) (flag : bool) (k : nat) :
  flag_after env flag (S k) = flag_after (env ∘ S) (flag || env O) k.
Proof.
  induction k as [|k IH]; [done|].
  change (flag_after env flag (S (S k)))
    with (flag_after env flag (S k) || env (S (S k))).
  by rewrite IH.
Qed.

Lemma do_while_shift (env : Env) (rest : list PROCESSENTRY32W) :
  ∀ i pe32 st,
    do_while w env (S i) pe32 rest st = do_while w (env ∘ S) i pe32 rest st.
Proof.
  induction rest as [|next rest IH]; intros i pe32 st; simpl; [done|].
  unfold in_flight at 1 3. simpl.
  destruct (cancelRequested _); [done|]. apply IH.
Qed.

Lemma set_cancelRequested_id (st : State) :
  set_cancelRequested (cancelRequested st) st = st.
Proof. by destruct st. Qed.

Lemma set_cancelRequested_twice (b b' : bool) (st : State) :
  set_cancelRequested b (set_cancelRequested b' st) = set_cancelRequested b st.
Proof. done. Qed.

(** Nothing in the loop body reads or writes the flag. *)
Lemma loop_body_flag (b : bool) (pe32 : PROCESSENTRY32W) (st : State) :
  loop_body w pe32 (set_cancelRequested b st)
  = set_cancelRequested b (loop_body w pe32 st).
Proof.
  unfold loop_body, GetProcessCommandLine, new_wchar_t.
  repeat case_match; simplify_eq; done.
Qed.

Lemma in_flight_set (env : Env) (i : nat) (st : State) :
  in_flight env i st = set_cancelRequested (cancelRequested st || env i) st.
Proof.
  unfold in_flight, RequestCancellation.
  destruct (env i); [by rewrite orb_true_r|].
  by rewrite orb_false_r, set_cancelRequested_id.
Qed.

Lemma process_entries_flag (b : bool) (es : list PROCESSENTRY32W) :
  ∀ st, process_entries w es (set_cancelRequested b st)
        = set_cancelRequested b (process_entries w es st).
Proof.
  unfold process_entries.
  induction es as [|pe32 es IH]; intros st; simpl; [done|].
  by rewrite loop_body_flag, IH.
Qed.

(** One call per entry, in the order of the list. *)
Lemma process_entries_calls (es : list PROCESSENTRY32W) :
  ∀ st, ∃ cs, calls (process_entries w es st) = calls st ++ cs
              ∧ c_pid <$> cs = th32ProcessID <$> es.
Proof.
  unfold process_entries.
  induction es as [|pe32 es IH]; intros st; simpl.
  - exists []. by rewrite app_nil_r.
  - destruct (loop_body_call pe32 st) as (c & Hc & Hpid & _).
    destruct (IH (loop_body w pe32 st)) as (cs & Hcs & Hpids).
    exists (c :: cs). rewrite Hcs, Hc, <- app_assoc.
    split; [done|]. by rewrite !fmap_cons, Hpid, Hpids.
Qed.

(** Whatever the requests, a pass is the loop body run over a
    non-empty prefix of the snapshot, and over all of it when no
    condition finds the flag set. *)
Lemma do_while_prefix (rest : list PROCESSENTRY32W) :
  ∀ env pe32 st,
    ∃ n b, (n ≤ length rest)%nat
           ∧ do_while w env 0 pe32 rest st
             = set_cancelRequested b
                 (process_entries w (take (S n) (pe32 :: rest)) st)
           ∧ ((∀ j, (j < length rest)%nat →
                    flag_after env (cancelRequested st) j = false) →
              n = length rest).
Proof.
  induction rest as [|next rest IH]; intros env pe32 st; simpl.
  - exists O. eexists. split; [done|]. by rewrite in_flight_set.
  - destruct (loop_body_call pe32 st) as (_ & _ & _ & Hflag).
    destruct (cancelRequested (in_flight env 0 (loop_body w pe32 st)))
      eqn:Hstop.
    + exists O. eexists. split; [lia|]. rewrite in_flight_set.
      split; [done|]. intros Hnone.
      specialize (Hnone O ltac:(lia)). simpl in Hnone.
      rewrite in_flight_flag, Hflag in Hstop. congruence.
    + rewrite do_while_shift.
      destruct (IH (env ∘ S) next (in_flight env 0 (loop_body w pe32 st)))
        as (n & b & Hn & -> & Hall).
      exists (S n), b. split; [lia|]. split.
      * by rewrite in_flight_set, process_entries_flag,
          set_cancelRequested_twice.
      * intros Hnone. f_equal. apply Hall. intros j Hj. rewrite Hstop.
        specialize (Hnone (S j) ltac:(lia)).
        rewrite in_flight_flag, Hflag in Hstop.
        by rewrite flag_after_shift, Hstop in Hnone.
Qed.

(** The loop stops at the first condition that sees the flag set, having
    run the body over the entries up to there. *)
Lemma do_while_stops (k : nat) :
  ∀ env rest pe32 st,
    (k ≤ length rest)%nat →
    flag_after env (cancelRequested st) k = true →
    (∀ j, (j < k)%nat → flag_after env (cancelRequested st) j = false) →
    do_while w env 0 pe32 rest st
    = set_cancelRequested true
        (process_entries w (take (S k) (pe32 :: rest)) st).
Proof.
  induction k as [|k IH]; intros env rest pe32 st Hk Hseen Hfirst.
  - destruct (loop_body_call pe32 st) as (_ & _ & _ & Hflag).
    assert (cancelRequested (in_flight env 0 (loop_body w pe32 st)) = true)
      as Hstop by (by rewrite in_flight_flag, Hflag).
    destruct rest as [|next rest]; simpl; rewrite ?Hstop;
      rewrite in_flight_set, Hflag; simpl in Hseen; by rewrite Hseen.
  - destruct rest as [|next rest]; [simpl in Hk; lia|].
    destruct (loop_body_call pe32 st) as (_ & _ & _ & Hflag).
    assert (cancelRequested st || env O = false) as Hgo
      by (apply (Hfirst O); lia).
    assert (in_flight env 0 (loop_body w pe32 st) = loop_body w pe32 st)
      as Hsame.
    { rewrite in_flight_set, Hflag, Hgo.
      apply orb_false_elim in Hgo as [Hgo _].
      by rewrite <- Hgo, <- Hflag, set_cancelRequested_id. }
    simpl. rewrite Hsame, Hflag.
    apply orb_false_elim in Hgo as Hgo'. destruct Hgo' as [Hst Henv].
    rewrite Hst, do_while_shift. apply IH.
    + simpl in Hk. lia.
    + rewrite Hflag, Hst. rewrite flag_after_shift, Hgo in Hseen.
      exact Hseen.
    + intros j Hj. rewrite Hflag, Hst.
      specialize (Hfirst (S j) ltac:(lia)).
      rewrite flag_after_shift, Hgo in Hfirst. exact Hfirst.
Qed.


(** Without a request from outside the pass does not write the flag. *)
Lemma do_while_flag_never (rest : list PROCESSENTRY32W) :
  ∀ i pe32 st,
    cancelRequested (do_while w never i pe32 rest st) = cancelRequested st.
Proof.
  induction rest as [|next rest IH]; intros i pe32 st; simpl.
  - destruct (loop_body_call pe32 st) as (_ & _ & _ & Hflag).
    unfold in_flight, never. by rewrite Hflag.
  - destruct (loop_body_call pe32 st) as (_ & _ & _ & Hflag).
    destruct (cancelRequested (in_flight never i (loop_body w pe32 st)))
      eqn:Hstop.
    + unfold in_flight, never in *. congruence.
    + rewrite IH. unfold in_flight, never. by rewrite Hflag.
Qed.

(** The three ways a pass can be set up, and the pass proper. *)
Lemma GetProcessDetails_unfold (env : Env) (st : State) :
  GetProcessDetails w env st =
    let st1 := (EnableDebugPrivilege w st).2 in
    if negb (EnableDebugPrivilege w st).1 then
      print [WText "Failed to enable debug privilege."; Endl] st1
    else
      match CreateToolhelp32Snapshot w with
      | None => print [WText "Failed to create snapshot."; Endl] st1
      | Some hSnap =>
          match Process32 w hSnap with
          | [] =>
              print [WText "Failed to get first process from snapshot."; Endl]
                (CloseHandle hSnap
                   (print [WText "Error code: "; WNum (GetLastError_first w);
                           Endl]
                      (open_handle hSnap st1)))
          | pe32 :: rest =>
              CloseHandle hSnap
                (do_while w env 0 pe32 rest (open_handle hSnap st1))
          end
      end.
Proof.
  unfold GetProcessDetails. by destruct (EnableDebugPrivilege w st).
Qed.
Lemma GetProcessDetails_pass (env : Env) (st : State) (hSnap : HANDLE)
    (pe32 : PROCESSENTRY32W) (rest : list PROCESSENTRY32W) :
  (EnableDebugPrivilege w st).1 = true →
  CreateToolhelp32Snapshot w = Some hSnap →
  Process32 w hSnap = pe32 :: rest →
  GetProcessDetails w env st =
    CloseHandle hSnap
      (do_while w env 0 pe32 rest
         (open_handle hSnap (EnableDebugPrivilege w st).2)).
Proof.
  intros Hok Hsnap Hfirst.
  by rewrite GetProcessDetails_unfold, Hok, Hsnap, Hfirst.
Qed.
End Enumeration.


(** * The claims *)

(** ** C1: privilege elevation fails *)

(** C1 as the specification states it (the pass continues in degraded
    mode and every snapshot entry still gets its callback) does not hold:
    on the sample machine with the token refused the snapshot would hold
    three entries, and the callback is not invoked at all. *)
Lemma degraded_mode_counterexample :
  (EnableDebugPrivilege w_denied initial_state).1 = false
  ∧ CreateToolhelp32Snapshot w_denied = Some 100
  ∧ Process32 w_denied 100 = sample_entries
  ∧ ¬ ∃ cs, calls (GetProcessDetails w_denied never initial_state)
            = calls initial_state ++ cs
            ∧ c_pid <$> cs = th32ProcessID <$> sample_entries.
Proof.
  repeat split; try reflexivity.
  intros (cs & Hcs & Hpids). vm_compute in Hcs. subst cs. discriminate Hpids.
Qed.

(** C1 (amended): if privilege elevation fails at the start of a pass,
    [GetProcessDetails] writes the diagnostic "Failed to enable debug
    privilege." and returns at once; the callback is not invoked for any
    process, and heap and flag are as before. *)
Theorem elevation_failure_aborts (w : World) (env : Env) (st : State) :
  (EnableDebugPrivilege w st).1 = false →
  calls (GetProcessDetails w env st) = calls st
  ∧ wcout (GetProcessDetails w env st)
    = wcout st ++ [WText "Failed to enable debug privilege."; Endl]
  ∧ heap (GetProcessDetails w env st) = heap st
  ∧ cancelRequested (GetProcessDetails w env st) = cancelRequested st.
Proof.
  intros Hfail. rewrite GetProcessDetails_unfold, Hfail. simpl.
  destruct (EnableDebugPrivilege_frame w st) as (Hc & Hout & Hheap & Hcalls).
  simpl in *. by rewrite Hc, Hout, Hheap, Hcalls.
Qed.

Lemma elevation_failure_aborts_witness :
  (EnableDebugPrivilege w_denied initial_state).1 = false
  ∧ calls (GetProcessDetails w_denied never initial_state)
    = calls initial_state
  ∧ wcout (GetProcessDetails w_denied never initial_state)
    = wcout initial_state ++ [WText "Failed to enable debug privilege."; Endl]
  ∧ heap (GetProcessDetails w_denied never initial_state) = heap initial_state
  ∧ cancelRequested (GetProcessDetails w_denied never initial_state)
    = cancelRequested initial_state.
Proof.
  split; [reflexivity|].
  apply (elevation_failure_aborts w_denied never initial_state). reflexivity.
Defined.

(** ** C2: the process name handed to the callback *)

(** C2 (the name is never empty: a placeholder replaces an empty or
    unavailable executable name) is what line 156 prepares, but line 157
    overwrites the placeholder with the snapshot name whatever it is.
    For a snapshot entry with an empty [szExeFile] whose process cannot
    be opened, the callback receives the empty name. *)
Theorem empty_name_delivered :
  calls (GetProcessDetails w_nameless never initial_state)
  = [ {| c_pid := 4; c_process_name := []; c_cmdline := NULL;
         c_text := None |} ].
Proof. vm_compute. reflexivity. Qed.

(** ** C3: the name after a failed enrichment *)

(** C3 as stated (after any failed enrichment the callback gets the
    snapshot's executable name) does not hold: the reader passes the
    caller's buffer to the module-name call before the later steps.  On
    the sample machine the snapshot calls pid 812 [cmd.exe], its module
    name reads [CMD.EXE], the information query is then refused, and the
    callback receives [CMD.EXE]. *)
Lemma failed_reader_name_counterexample :
  let pe32 := {| th32ProcessID := 812; szExeFile := L "cmd.exe" |} in
  succeeded (enrichment w_query_fails pe32 initial_state) = false
  ∧ snapshot_name pe32 = L "cmd.exe"
  ∧ calls (loop_body w_query_fails pe32 initial_state)
    = [ {| c_pid := 812; c_process_name := L "CMD.EXE"; c_cmdline := NULL;
           c_text := None |} ]
  ∧ L "CMD.EXE" ≠ snapshot_name pe32.
Proof. repeat split; try (vm_compute; reflexivity). discriminate. Qed.

(** C3 (amended): for every snapshot entry whose enrichment fails the
    callback is invoked with the entry's pid and an absent command line.
    When the failure is that the process cannot be opened, the name
    delivered is the snapshot's executable name (cut to [MAX_PATH - 1]
    units); when the process was opened, it is whatever the module-name
    call left in the caller's buffer. *)
Theorem failed_enrichment_name (w : World) (pe32 : PROCESSENTRY32W)
    (st : State) :
  succeeded (enrichment w pe32 st) = false →
  ∃ c, calls (loop_body w pe32 st) = calls st ++ [c]
       ∧ c_pid c = th32ProcessID pe32
       ∧ c_cmdline c = NULL
       ∧ c_process_name c =
           match OpenProcess w (th32ProcessID pe32) with
           | None => take (N.to_nat (MAX_PATH - 1)) (szExeFile pe32)
           | Some hProcess =>
               (GetModuleBaseNameW w hProcess (snapshot_name pe32) MAX_PATH).2
           end.
Proof.
  unfold succeeded, enrichment, loop_body. fold (snapshot_name pe32).
  pose proof (GetProcessCommandLine_name w (th32ProcessID pe32) NULL
                (snapshot_name pe32) MAX_PATH st) as Hname.
  pose proof (GetProcessCommandLine_frame w (th32ProcessID pe32) NULL
                (snapshot_name pe32) MAX_PATH st) as (_ & _ & Hcalls & _).
  destruct (GetProcessCommandLine _ _ _ _ _ _) as [[[ok p] name] st'].
  simpl in *. intros ->. eexists.
  split; [simpl; rewrite Hcalls; reflexivity|].
  simpl. repeat split. rewrite Hname. by destruct (OpenProcess _ _).
Qed.

Lemma failed_enrichment_name_witness :
  let pe32 := {| th32ProcessID := 4; szExeFile := L "System" |} in
  succeeded (enrichment w_admin pe32 initial_state) = false
  ∧ ∃ c, calls (loop_body w_admin pe32 initial_state)
         = calls initial_state ++ [c]
         ∧ c_pid c = th32ProcessID pe32
         ∧ c_cmdline c = NULL
         ∧ c_process_name c =
             match OpenProcess w_admin (th32ProcessID pe32) with
             | None => take (N.to_nat (MAX_PATH - 1)) (szExeFile pe32)
             | Some hProcess =>
                 (GetModuleBaseNameW w_admin hProcess (snapshot_name pe32)
                    MAX_PATH).2
             end.
Proof.
  split; [reflexivity|].
  apply (failed_enrichment_name w_admin
           {| th32ProcessID := 4; szExeFile := L "System" |} initial_state).
  reflexivity.
Defined.

(** ** C4: when a cancellation request is observed *)

(** C4: the flag is looked at only between two snapshot entries.  If the
    first loop condition that finds the flag set is the one after entry
    [k] (the request came before the pass or while one of the entries up
    to [k] was in flight), then the pass is exactly the loop body run to
    completion over the entries up to and including [k]: each of them gets
    its callback, in order, and no later entry is touched.  The number
    of callbacks is below the number of snapshot entries unless [k] is
    the last entry. *)
Theorem cancellation_between_entries (w : World) (env : Env) (st : State)
    (hSnap : HANDLE) (es : list PROCESSENTRY32W) (k : nat) :
  (EnableDebugPrivilege w st).1 = true →
  CreateToolhelp32Snapshot w = Some hSnap →
  Process32 w hSnap = es →
  (k < length es)%nat →
  flag_after env (cancelRequested st) k = true →
  (∀ j, (j < k)%nat → flag_after env (cancelRequested st) j = false) →
  ∃ cs, calls (GetProcessDetails w env st) = calls st ++ cs
        ∧ c_pid <$> cs = th32ProcessID <$> take (S k) es
        ∧ calls (GetProcessDetails w env st)
          = calls (process_entries w (take (S k) es)
                     (open_handle hSnap (EnableDebugPrivilege w st).2))
        ∧ length cs = S k
        ∧ ((length cs < length es)%nat ↔ (S k < length es)%nat).
Proof.
  intros Hok Hsnap Hes Hk Hseen Hfirst.
  destruct es as [|pe32 rest]; [simpl in Hk; lia|].
  rewrite (GetProcessDetails_pass w env st hSnap pe32 rest Hok Hsnap Hes).
  destruct (EnableDebugPrivilege_frame w st) as (Hflag & _ & _ & Hcalls).
  simpl in Hflag, Hcalls.
  rewrite (do_while_stops w k) by
    (simpl in *; rewrite ?Hflag; first [lia | assumption]).
  change (calls (CloseHandle hSnap (set_cancelRequested true ?s)))
    with (calls s).
  destruct (process_entries_calls w (take (S k) (pe32 :: rest))
              (open_handle hSnap (EnableDebugPrivilege w st).2))
    as (cs & Hcs & Hpids).
  change (calls (open_handle hSnap ?s)) with (calls s) in Hcs.
  rewrite Hcalls in Hcs.
  assert (length cs = S k) as Hlen.
  { rewrite <- (length_fmap c_pid cs), Hpids, length_fmap, length_take.
    simpl in *. lia. }
  exists cs. rewrite Hlen. by repeat split; try lia.
Qed.

Lemma cancellation_between_entries_witness :
  let env : Env := fun i => Nat.eqb i 1 in
  (EnableDebugPrivilege w_admin initial_state).1 = true
  ∧ CreateToolhelp32Snapshot w_admin = Some 100
  ∧ Process32 w_admin 100 = sample_entries
  ∧ (1 < length sample_entries)%nat
  ∧ flag_after env (cancelRequested initial_state) 1 = true
  ∧ (∀ j, (j < 1)%nat → flag_after env (cancelRequested initial_state) j = false)
  ∧ ∃ cs, calls (GetProcessDetails w_admin env initial_state)
          = calls initial_state ++ cs
          ∧ c_pid <$> cs = th32ProcessID <$> take 2 sample_entries
          ∧ calls (GetProcessDetails w_admin env initial_state)
            = calls (process_entries w_admin (take 2 sample_entries)
                       (open_handle 100
                          (EnableDebugPrivilege w_admin initial_state).2))
          ∧ length cs = 2%nat
          ∧ ((length cs < length sample_entries)%nat
             ↔ (2 < length sample_entries)%nat).
Proof.
  assert (∀ j, (j < 1)%nat →
            flag_after (fun i => Nat.eqb i 1) (cancelRequested initial_state) j
            = false) as Hfirst.
  { intros j Hj. destruct j as [|j]; [reflexivity|lia]. }
  do 3 (split; [reflexivity|]). split; [simpl; lia|].
  split; [reflexivity|]. split; [exact Hfirst|].
  apply (cancellation_between_entries w_admin (fun i => Nat.eqb i 1)
           initial_state 100 sample_entries 1);
    try reflexivity; try (simpl; lia); exact Hfirst.
Defined.

(** ** C5: no partial buffer *)

(** A successful read went through each step, for the process opened
    for [dwPid]. *)
Lemma GetProcessCommandLine_true_chain (w : World) (dwPid : DWORD)
    (p : pointer) (name : wstring) (size : N) (st : State)
    (p' : pointer) (name' : wstring) (st' : State) :
  GetProcessCommandLine w dwPid p name size st = (true, p', name', st') →
  ∃ hProcess upp bytes a,
    reaches_descriptor w dwPid name size hProcess upp
    ∧ ReadProcessMemory w hProcess (Buffer (CommandLine upp))
        (Length (CommandLine upp)) = Some bytes
    ∧ p' = Ptr a
    ∧ heap st !! a = None
    ∧ heap st' =
        <[a := write_wchar (Length (CommandLine upp) / sizeof_wchar_t) 0
                 (write_bytes bytes
                    (replicate
                       (N.to_nat
                          (sizeof_wchar_t
                           * (Length (CommandLine upp) / sizeof_wchar_t + 1)))
                       None))]> (heap st).
Proof.
  unfold GetProcessCommandLine, new_wchar_t, reaches_descriptor.
  repeat case_match; intros; simplify_eq; simpl.
  repeat match goal with
         | H : negb (_ =? _)%Z = false |- _ =>
             apply negb_false_iff, Z.eqb_eq in H; subst
         | H : (_ =? 0) = false |- _ => apply N.eqb_neq in H
         end.
  match goal with
  | Hname : GetModuleBaseNameW _ ?h _ _ = _,
    Hnt : GetModuleHandleW_ntdll _ = Some ?h0,
    Hpfn : GetProcAddress_NtQueryInformationProcess _ _ = Some ?f,
    Hquery : ?f ?h = (_, ?pbi),
    Hpeb : ReadProcessMemory_PEB _ _ _ = Some ?peb,
    Hupp : ReadProcessMemory_UPP _ _ _ = Some ?upp,
    Hread : ReadProcessMemory _ _ _ _ = Some ?bs |- _ =>
      exists h, upp, bs, (fresh (dom (heap st)));
      split;
      [split;
       [reflexivity
       |split;
        [rewrite Hname; simpl; assumption
        |exists h0, f, pbi, peb; repeat split;
         try reflexivity; assumption]]|]
  end.
  split; [assumption|]. split; [reflexivity|]. split.
  - apply not_elem_of_dom, is_fresh.
  - by rewrite !alter_insert_eq.
Qed.

(** Once the descriptor is reached, the third read decides the result. *)
Lemma GetProcessCommandLine_third_read (w : World) (dwPid : DWORD)
    (p : pointer) (name : wstring) (size : N) (st : State)
    (hProcess : HANDLE) (upp : RTL_USER_PROCESS_PARAMETERS) :
  reaches_descriptor w dwPid name size hProcess upp →
  match ReadProcessMemory w hProcess (Buffer (CommandLine upp))
          (Length (CommandLine upp)) with
  | Some _ => (GetProcessCommandLine w dwPid p name size st).1.1.1 = true
  | None =>
      (GetProcessCommandLine w dwPid p name size st).1.1.1 = false
      ∧ (GetProcessCommandLine w dwPid p name size st).1.1.2
        = Ptr (fresh (dom (heap st)))
  end.
Proof.
  intros (Hopen & Hcopied & hNtDll & pfn & pbi & peb
          & Hnt & Hpfn & Hquery & Hpeb & Hupp).
  unfold GetProcessCommandLine, new_wchar_t. rewrite Hopen.
  destruct (GetModuleBaseNameW w hProcess name size) as [copied name1].
  simpl in Hcopied. apply N.eqb_neq in Hcopied.
  rewrite Hcopied, Hnt, Hpfn, Hquery. simpl. rewrite Hpeb, Hupp.
  by destruct (ReadProcessMemory w hProcess (Buffer (CommandLine upp))
                 (Length (CommandLine upp))).
Qed.

(** C5 as stated (the reader returns a fully copied, terminated
    buffer or nothing) does not hold when the reported byte length is
    odd.  On the sample machine with a descriptor of one byte the read
    succeeds, one byte is read, and the block delivered is the
    terminator alone: the byte read is not in it. *)
Lemma full_copy_counterexample :
  let r := GetProcessCommandLine w_one_byte 812 NULL (L "cmd.exe") MAX_PATH
             initial_state in
  succeeded r = true
  ∧ r.1.1.2 = Ptr 0
  ∧ ReadProcessMemory w_one_byte 200 12288 1 = Some [x63]
  ∧ heap r.2 !! 0%nat = Some [Some x00; Some x00]
  ∧ ¬ (Some <$> [x63]) `prefix_of` [Some x00; Some x00].
Proof.
  repeat split; try (vm_compute; reflexivity).
  intros [tail Htail]. discriminate Htail.
Qed.

(** C5 (amended): a call of the reader fails, and then the heap is
    exactly as before the call and the pointer left behind is the
    caller's or refers to no live block; or it succeeds, and then it has
    reached the descriptor of the process opened for [dwPid], has read
    the [Length] bytes the descriptor reports, and [*ppszCmdLine] points
    to one new block holding the first [2 * (Length / 2)] of those bytes
    followed by a zero unit, every byte written: all the bytes read
    when [Length] is even.  Once the descriptor is reached the call
    succeeds exactly when the third read does, and when that read fails
    the block allocated for it has been released on return. *)
Theorem no_partial_buffer (w : World) (dwPid : DWORD) (p : pointer)
    (name : wstring) (size : N) (st : State)
    (ok : bool) (p' : pointer) (name' : wstring) (st' : State) :
  GetProcessCommandLine w dwPid p name size st = (ok, p', name', st') →
  (if ok
   then ∃ hProcess upp bytes a,
          reaches_descriptor w dwPid name size hProcess upp
          ∧ ReadProcessMemory w hProcess (Buffer (CommandLine upp))
              (Length (CommandLine upp)) = Some bytes
          ∧ length bytes = N.to_nat (Length (CommandLine upp))
          ∧ p' = Ptr a
          ∧ heap st !! a = None
          ∧ heap st' =
              <[a := (Some <$> take (N.to_nat
                                       (2 * (Length (CommandLine upp) / 2)))
                                bytes)
                     ++ [Some x00; Some x00]]> (heap st)
          ∧ (N.even (Length (CommandLine upp)) = true →
             heap st' =
               <[a := (Some <$> bytes) ++ [Some x00; Some x00]]> (heap st))
   else heap st' = heap st
        ∧ (p' = p ∨ ∃ a, p' = Ptr a ∧ heap st' !! a = None))
  ∧ ∀ hProcess upp,
      reaches_descriptor w dwPid name size hProcess upp →
      (∀ bytes,
         ReadProcessMemory w hProcess (Buffer (CommandLine upp))
           (Length (CommandLine upp)) = Some bytes →
         ok = true)
      ∧ (ReadProcessMemory w hProcess (Buffer (CommandLine upp))
           (Length (CommandLine upp)) = None →
         ok = false
         ∧ ∃ a, p' = Ptr a ∧ heap st !! a = None ∧ heap st' = heap st).
Proof.
  intros Hcall. split.
  - destruct ok.
    + apply GetProcessCommandLine_true_chain in Hcall
        as (h & upp & bytes & a & Hreach & Hread & -> & Hfresh & ->).
      pose proof (ReadProcessMemory_length _ _ _ _ _ Hread) as Hlen.
      exists h, upp, bytes, a.
      rewrite (terminated_block bytes _ Hlen).
      do 5 (split; [done|]). split; [done|].
      intros Heven. by rewrite (terminated_block_even bytes _ Hlen Heven).
    + by apply GetProcessCommandLine_false in Hcall.
  - intros h upp Hreach.
    pose proof (GetProcessCommandLine_third_read w dwPid p name size st h upp
                  Hreach) as Hthird.
    rewrite Hcall in Hthird. simpl in Hthird. split.
    + intros bytes Hread. by rewrite Hread in Hthird.
    + intros Hread. rewrite Hread in Hthird. destruct Hthird as [-> ->].
      split; [done|]. exists (fresh (dom (heap st))).
      split; [done|]. split; [apply not_elem_of_dom, is_fresh|].
      by apply GetProcessCommandLine_false in Hcall as [? _].
Qed.

Lemma no_partial_buffer_witness :
  ((GetProcessCommandLine w_short_read 812 NULL (L "cmd.exe") MAX_PATH
      initial_state
    = (false, Ptr 0, L "cmd.exe", initial_state))
   ∧ (heap initial_state = heap initial_state
      ∧ (Ptr 0 = NULL ∨ ∃ a, Ptr 0 = Ptr a ∧ heap initial_state !! a = None))
   ∧ ∀ hProcess upp,
       reaches_descriptor w_short_read 812 (L "cmd.exe") MAX_PATH hProcess upp →
       (∀ bytes,
          ReadProcessMemory w_short_read hProcess (Buffer (CommandLine upp))
            (Length (CommandLine upp)) = Some bytes →
          false = true)
       ∧ (ReadProcessMemory w_short_read hProcess (Buffer (CommandLine upp))
            (Length (CommandLine upp)) = None →
          false = false
          ∧ ∃ a, Ptr 0 = Ptr a ∧ heap initial_state !! a = None
                 ∧ heap initial_state = heap initial_state))
  ∧ let r := GetProcessCommandLine w_admin 812 NULL (L "cmd.exe") MAX_PATH
               initial_state in
    r = (true, r.1.1.2, r.1.2, r.2)
    ∧ ∃ hProcess upp bytes a,
        reaches_descriptor w_admin 812 (L "cmd.exe") MAX_PATH hProcess upp
        ∧ ReadProcessMemory w_admin hProcess (Buffer (CommandLine upp))
            (Length (CommandLine upp)) = Some bytes
        ∧ length bytes = N.to_nat (Length (CommandLine upp))
        ∧ r.1.1.2 = Ptr a
        ∧ heap initial_state !! a = None
        ∧ heap r.2 =
            <[a := (Some <$> take (N.to_nat
                                     (2 * (Length (CommandLine upp) / 2)))
                              bytes)
                   ++ [Some x00; Some x00]]> (heap initial_state)
        ∧ (N.even (Length (CommandLine upp)) = true →
           heap r.2 =
             <[a := (Some <$> bytes) ++ [Some x00; Some x00]]>
               (heap initial_state)).
Proof.
  split.
  - split; [vm_compute; reflexivity|].
    apply (no_partial_buffer w_short_read 812 NULL (L "cmd.exe") MAX_PATH
             initial_state false (Ptr 0) (L "cmd.exe") initial_state).
    vm_compute; reflexivity.
  - intros r. split; [vm_compute; reflexivity|].
    destruct (no_partial_buffer w_admin 812 NULL (L "cmd.exe") MAX_PATH
                initial_state true r.1.1.2 r.1.2 r.2) as [Hok _];
      [vm_compute; reflexivity|exact Hok].
Defined.

(** ** C6: what a delivered command line holds *)

(** C6 as stated (the delivered buffer holds exactly the bytes the
    descriptor reports, then the terminator) does not hold when the
    reported byte length is odd: the terminator is written at unit
    [Length / 2] and overwrites the last byte read.  On the sample
    machine with a descriptor of 5 bytes, 5 bytes are read and the
    block delivered holds 4 of them. *)
Lemma odd_length_counterexample :
  let r := GetProcessCommandLine w_odd_length 812 NULL (L "cmd.exe") MAX_PATH
             initial_state in
  succeeded r = true
  ∧ r.1.1.2 = Ptr 0
  ∧ ReadProcessMemory w_odd_length 200 12288 5
    = Some [x63; x00; x6d; x00; x64]
  ∧ heap r.2 !! 0%nat
    = Some [Some x63; Some x00; Some x6d; Some x00; Some x00; Some x00]
  ∧ heap r.2 !! 0%nat
    ≠ Some ((Some <$> [x63; x00; x6d; x00; x64]) ++ [Some x00; Some x00]).
Proof.
  repeat split; try (vm_compute; reflexivity).
  vm_compute. discriminate.
Qed.

(** C6 (amended): when the reader delivers a command line, the block
    holds the first [2 * (Length / 2)] of the [Length] bytes read from
    the target's buffer, followed by a zero unit at unit index
    [Length / 2], where [Length] is the byte length in the descriptor
    read from the target.  When [Length] is even these are all the bytes
    reported and read. *)
Theorem delivered_command_line (w : World) (dwPid : DWORD) (p : pointer)
    (name : wstring) (size : N) (st : State)
    (p' : pointer) (name' : wstring) (st' : State) :
  GetProcessCommandLine w dwPid p name size st = (true, p', name', st') →
  ∃ hProcess addr upp bytes a,
    OpenProcess w dwPid = Some hProcess
    ∧ ReadProcessMemory_UPP w hProcess addr = Some upp
    ∧ ReadProcessMemory w hProcess (Buffer (CommandLine upp))
        (Length (CommandLine upp)) = Some bytes
    ∧ length bytes = N.to_nat (Length (CommandLine upp))
    ∧ p' = Ptr a
    ∧ heap st' !! a =
        Some ((Some <$> take (N.to_nat (2 * (Length (CommandLine upp) / 2)))
                          bytes)
              ++ [Some x00; Some x00])
    ∧ (N.even (Length (CommandLine upp)) = true →
       heap st' !! a = Some ((Some <$> bytes) ++ [Some x00; Some x00])).
Proof.
  intros Hcall.
  apply GetProcessCommandLine_true in Hcall
    as (h & addr & upp & bytes & a & Hopen & Hupp & Hread & -> & Hfresh & ->).
  pose proof (ReadProcessMemory_length _ _ _ _ _ Hread) as Hlen.
  exists h, addr, upp, bytes, a.
  rewrite lookup_insert_eq, (terminated_block bytes _ Hlen).
  repeat split; try done.
  intros Heven. by rewrite (terminated_block_even bytes _ Hlen Heven).
Qed.

Lemma delivered_command_line_witness :
  let r := GetProcessCommandLine w_admin 812 NULL (L "cmd.exe") MAX_PATH
             initial_state in
  r = (true, r.1.1.2, r.1.2, r.2)
  ∧ ∃ hProcess addr upp bytes a,
      OpenProcess w_admin 812 = Some hProcess
      ∧ ReadProcessMemory_UPP w_admin hProcess addr = Some upp
      ∧ ReadProcessMemory w_admin hProcess (Buffer (CommandLine upp))
          (Length (CommandLine upp)) = Some bytes
      ∧ length bytes = N.to_nat (Length (CommandLine upp))
      ∧ r.1.1.2 = Ptr a
      ∧ heap r.2 !! a =
          Some ((Some <$> take (N.to_nat (2 * (Length (CommandLine upp) / 2)))
                            bytes)
                ++ [Some x00; Some x00])
      ∧ (N.even (Length (CommandLine upp)) = true →
         heap r.2 !! a = Some ((Some <$> bytes) ++ [Some x00; Some x00])).
Proof.
  intros r. split; [vm_compute; reflexivity|].
  apply (delivered_command_line w_admin 812 NULL (L "cmd.exe") MAX_PATH
           initial_state r.1.1.2 r.1.2 r.2).
  vm_compute; reflexivity.
Defined.

(** ** C7: one callback per entry, in snapshot order *)

(** C7: in a pass that got its snapshot, the callback is invoked once
    for each entry of a non-empty prefix of the snapshot, in the
    snapshot's order, and the pass is the loop body run over that
    prefix.  This holds for every behaviour of the reader's steps; when
    no loop condition before the last entry finds the flag set, the
    prefix is the whole snapshot. *)
Theorem callback_once_per_entry (w : World) (env : Env) (st : State)
    (hSnap : HANDLE) (es : list PROCESSENTRY32W) :
  (EnableDebugPrivilege w st).1 = true →
  CreateToolhelp32Snapshot w = Some hSnap →
  Process32 w hSnap = es →
  es ≠ [] →
  ∃ cs n,
    calls (GetProcessDetails w env st) = calls st ++ cs
    ∧ (1 ≤ n ≤ length es)%nat
    ∧ length cs = n
    ∧ c_pid <$> cs = th32ProcessID <$> take n es
    ∧ calls (GetProcessDetails w env st)
      = calls (process_entries w (take n es)
                 (open_handle hSnap (EnableDebugPrivilege w st).2))
    ∧ ((∀ j, (S j < length es)%nat →
             flag_after env (cancelRequested st) j = false) →
       n = length es).
Proof.
  intros Hok Hsnap Hes Hne.
  destruct es as [|pe32 rest]; [done|].
  rewrite (GetProcessDetails_pass w env st hSnap pe32 rest Hok Hsnap Hes).
  destruct (EnableDebugPrivilege_frame w st) as (Hflag & _ & _ & Hcalls).
  simpl in Hflag, Hcalls.
  set (st1 := open_handle hSnap (EnableDebugPrivilege w st).2).
  destruct (do_while_prefix w rest env pe32 st1) as (n & b & Hn & -> & Hall).
  destruct (process_entries_calls w (take (S n) (pe32 :: rest)) st1)
    as (cs & Hcs & Hpids).
  exists cs, (S n).
  change (calls (CloseHandle hSnap (set_cancelRequested b ?s)))
    with (calls s).
  rewrite Hcs. subst st1. simpl calls at 1. rewrite Hcalls.
  repeat split; try done; try (simpl; lia).
  - rewrite <- (length_fmap c_pid cs), Hpids, length_fmap, length_take.
    simpl. lia.
  - intros Hnone. simpl. f_equal. apply Hall. intros j Hj.
    simpl. rewrite Hflag. apply Hnone. simpl. lia.
Qed.

Lemma callback_once_per_entry_witness :
  (EnableDebugPrivilege w_admin initial_state).1 = true
  ∧ CreateToolhelp32Snapshot w_admin = Some 100
  ∧ Process32 w_admin 100 = sample_entries
  ∧ sample_entries ≠ []
  ∧ ∃ cs n,
      calls (GetProcessDetails w_admin never initial_state)
      = calls initial_state ++ cs
      ∧ (1 ≤ n ≤ length sample_entries)%nat
      ∧ length cs = n
      ∧ c_pid <$> cs = th32ProcessID <$> take n sample_entries
      ∧ calls (GetProcessDetails w_admin never initial_state)
        = calls (process_entries w_admin (take n sample_entries)
                   (open_handle 100
                      (EnableDebugPrivilege w_admin initial_state).2))
      ∧ ((∀ j, (S j < length sample_entries)%nat →
               flag_after never (cancelRequested initial_state) j = false) →
         n = length sample_entries).
Proof.
  do 3 (split; [reflexivity|]). split; [discriminate|].
  apply (callback_once_per_entry w_admin never initial_state 100
           sample_entries); try reflexivity; discriminate.
Defined.

(** ** C8: what aborts a pass *)

(** C8 as stated (a failed snapshot is the only condition that aborts a
    pass) does not hold: on the sample machine with the token refused
    the snapshot can be created and read, and the pass returns without
    a single callback. *)
Lemma only_snapshot_failure_counterexample :
  ¬ (calls (GetProcessDetails w_denied never initial_state)
     = calls initial_state →
     CreateToolhelp32Snapshot w_denied = None
     ∨ ∃ hSnap, CreateToolhelp32Snapshot w_denied = Some hSnap
                ∧ Process32 w_denied hSnap = []).
Proof.
  intros Hclaim.
  destruct (Hclaim ltac:(reflexivity)) as [Hnone|(hSnap & _ & Hempty)];
    discriminate.
Qed.

(** C8 (amended): if the snapshot cannot be created, or its first entry
    cannot be read, [GetProcessDetails] writes its diagnostic and
    returns without invoking the callback.  A pass ends without any
    callback exactly when privilege elevation fails, the snapshot
    cannot be created, or its first entry cannot be read. *)
Theorem setup_failure_aborts (w : World) (env : Env) (st : State) :
  ((EnableDebugPrivilege w st).1 = true →
   CreateToolhelp32Snapshot w = None →
   calls (GetProcessDetails w env st) = calls st
   ∧ wcout (GetProcessDetails w env st)
     = wcout st ++ [WText "Failed to create snapshot."; Endl])
  ∧ (∀ hSnap,
       (EnableDebugPrivilege w st).1 = true →
       CreateToolhelp32Snapshot w = Some hSnap →
       Process32 w hSnap = [] →
       calls (GetProcessDetails w env st) = calls st
       ∧ wcout (GetProcessDetails w env st)
         = wcout st ++ [WText "Error code: "; WNum (GetLastError_first w);
                        Endl;
                        WText "Failed to get first process from snapshot.";
                        Endl])
  ∧ (calls (GetProcessDetails w env st) = calls st
     ↔ (EnableDebugPrivilege w st).1 = false
       ∨ CreateToolhelp32Snapshot w = None
       ∨ ∃ hSnap, CreateToolhelp32Snapshot w = Some hSnap
                  ∧ Process32 w hSnap = []).
Proof.
  destruct (EnableDebugPrivilege_frame w st) as (_ & Hout & _ & Hcalls).
  simpl in Hout, Hcalls.
  rewrite GetProcessDetails_unfold. simpl.
  split; [|split].
  - intros -> ->. simpl. by rewrite Hcalls, Hout.
  - intros hSnap -> -> ->. simpl. rewrite Hcalls, Hout, <- app_assoc. done.
  - destruct (EnableDebugPrivilege w st).1 eqn:Hok; simpl.
    2: { split; [by left|]. by rewrite Hcalls. }
    destruct (CreateToolhelp32Snapshot w) as [hSnap|] eqn:Hsnap; simpl.
    2: { split; [by right; left|]. by rewrite Hcalls. }
    destruct (Process32 w hSnap) as [|pe32 rest] eqn:Hfirst; simpl.
    { split; [right; right; eauto|]. by rewrite Hcalls. }
    split.
    + intros Hsame. exfalso.
      destruct (do_while_prefix w rest env pe32
                  (open_handle hSnap (EnableDebugPrivilege w st).2))
        as (n & b & _ & Hrun & _).
      rewrite Hrun in Hsame.
      destruct (loop_body_call w pe32
                  (open_handle hSnap (EnableDebugPrivilege w st).2))
        as (c & Hc & _).
      destruct (process_entries_calls w (take n rest)
                  (loop_body w pe32
                     (open_handle hSnap (EnableDebugPrivilege w st).2)))
        as (cs & Hcs & _).
      change (calls (process_entries w (take n rest)
                       (loop_body w pe32
                          (open_handle hSnap (EnableDebugPrivilege w st).2)))
              = calls st) in Hsame.
      rewrite Hcs, Hc in Hsame. simpl in Hsame. rewrite Hcalls in Hsame.
      apply (f_equal length) in Hsame. rewrite !length_app in Hsame.
      simpl in Hsame. lia.
    + intros [Hfalse|[Hnone|(h & Hsome & Hempty)]]; try discriminate.
      simplify_eq. congruence.
Qed.

Lemma setup_failure_aborts_witness :
  (EnableDebugPrivilege w_empty_snapshot initial_state).1 = true
  ∧ CreateToolhelp32Snapshot w_empty_snapshot = Some 100
  ∧ Process32 w_empty_snapshot 100 = []
  ∧ calls (GetProcessDetails w_empty_snapshot never initial_state)
    = calls initial_state
  ∧ wcout (GetProcessDetails w_empty_snapshot never initial_state)
    = wcout initial_state
      ++ [WText "Error code: "; WNum (GetLastError_first w_empty_snapshot);
          Endl; WText "Failed to get first process from snapshot."; Endl].
Proof.
  do 3 (split; [reflexivity|]).
  destruct (setup_failure_aborts w_empty_snapshot never initial_state)
    as (_ & Hfirst & _).
  apply (Hfirst 100); reflexivity.
Defined.

(** ** C9: the flag is never cleared *)



(** ** C10: the token handle *)

(** C10: once the token of the current process has been opened, any
    later failure (the privilege value cannot be looked up, the
    adjustment fails, or the system reports that not all privileges were
    assigned) makes [EnableDebugPrivilege] return false with the token
    handle still open; only when every step succeeds is the handle
    closed, and the function then returns true. *)
Theorem token_handle_closed_only_on_success (w : World) (st : State)
    (hToken : HANDLE) :
  OpenProcessToken w = Some hToken →
  ((LookupPrivilegeValue w = None
    ∨ ∃ luid, LookupPrivilegeValue w = Some luid
              ∧ (AdjustTokenPrivileges w hToken luid = false
                 ∨ GetLastError_adjust w = ERROR_NOT_ALL_ASSIGNED)) →
   (EnableDebugPrivilege w st).1 = false
   ∧ handles (EnableDebugPrivilege w st).2 = hToken :: handles st)
  ∧ ((∃ luid, LookupPrivilegeValue w = Some luid
              ∧ AdjustTokenPrivileges w hToken luid = true
              ∧ GetLastError_adjust w ≠ ERROR_NOT_ALL_ASSIGNED) →
     (EnableDebugPrivilege w st).1 = true
     ∧ handles (EnableDebugPrivilege w st).2 = handles st)
  ∧ ((EnableDebugPrivilege w st).1 = true
     ↔ handles (EnableDebugPrivilege w st).2 = handles st).
Proof.
  intros Htoken. unfold EnableDebugPrivilege. rewrite Htoken.
  assert (hToken :: handles st ≠ handles st) as Hgrow.
  { intros Heq. apply (f_equal length) in Heq. simpl in Heq. lia. }
  destruct (LookupPrivilegeValue w) as [luid|]; simpl.
  2: { split; [done|]. split; [by intros (? & ? & _)|].
       split; [done|]. intros Heq. by destruct Hgrow. }
  destruct (AdjustTokenPrivileges w hToken luid) eqn:Hadj; simpl.
  2: { split; [done|].
       split; [intros (luid' & Hl & Ha & _); simplify_eq; congruence|].
       split; [done|]. intros Heq. by destruct Hgrow. }
  destruct (GetLastError_adjust w =? ERROR_NOT_ALL_ASSIGNED) eqn:Herr; simpl.
  - apply N.eqb_eq in Herr. split; [done|].
    split; [by intros (luid' & _ & _ & Hne)|].
    split; [done|]. intros Heq. by destruct Hgrow.
  - apply N.eqb_neq in Herr. rewrite N.eqb_refl. split.
    + intros [Hnone|(luid' & Hl & [Ha|He])]; simplify_eq; congruence.
    + split; [done|]. split; done.
Qed.

Lemma token_handle_closed_only_on_success_witness :
  OpenProcessToken w_not_all_assigned = Some 50
  ∧ (LookupPrivilegeValue w_not_all_assigned = None
     ∨ ∃ luid, LookupPrivilegeValue w_not_all_assigned = Some luid
               ∧ (AdjustTokenPrivileges w_not_all_assigned 50 luid = false
                  ∨ GetLastError_adjust w_not_all_assigned
                    = ERROR_NOT_ALL_ASSIGNED))
  ∧ (EnableDebugPrivilege w_not_all_assigned initial_state).1 = false
  ∧ handles (EnableDebugPrivilege w_not_all_assigned initial_state).2
    = 50 :: handles initial_state.
Proof.
  assert (LookupPrivilegeValue w_not_all_assigned = None
          ∨ ∃ luid, LookupPrivilegeValue w_not_all_assigned = Some luid
                    ∧ (AdjustTokenPrivileges w_not_all_assigned 50 luid = false
                       ∨ GetLastError_adjust w_not_all_assigned
                         = ERROR_NOT_ALL_ASSIGNED)) as Hlater.
  { right. exists 20. split; [reflexivity|]. right. reflexivity. }
  split; [reflexivity|]. split; [exact Hlater|].
  apply (token_handle_closed_only_on_success w_not_all_assigned initial_state
           50); [reflexivity|exact Hlater].
Defined.

(** * Further properties of the code *)

(** ** What an iteration and a pass leave behind *)

(** An iteration returns the heap and the open handles as it found
    them and writes no diagnostic. *)
Lemma loop_body_frame (w : World) (pe32 : PROCESSENTRY32W) (st : State) :
  handles (loop_body w pe32 st) = handles st
  ∧ heap (loop_body w pe32 st) = heap st
  ∧ wcout (loop_body w pe32 st) = wcout st.
Proof.
  unfold loop_body.
  pose proof (GetProcessCommandLine_frame w (th32ProcessID pe32) NULL
                (wcsncpy_s_TRUNCATE (L "<unknown>") MAX_PATH (szExeFile pe32))
                MAX_PATH st) as Hframe.
  destruct (GetProcessCommandLine _ _ _ _ _ _) as [[[ok p] name] st'] eqn:Hcall.
  simpl in Hframe. destruct Hframe as (_ & Hout & _ & Hhandles).
  destruct ok.
  - apply GetProcessCommandLine_true in Hcall
      as (h & addr & upp & bytes & a & _ & _ & _ & -> & Hfresh & Hheap).
    simpl. rewrite Hheap, delete_insert_eq, delete_id by done. done.
  - apply GetProcessCommandLine_false in Hcall as (Hheap & _).
    simpl. done.
Qed.

Lemma process_entries_frame (w : World) (es : list PROCESSENTRY32W) :
  ∀ st, handles (process_entries w es st) = handles st
        ∧ heap (process_entries w es st) = heap st
        ∧ wcout (process_entries w es st) = wcout st.
Proof.
  unfold process_entries.
  induction es as [|pe32 es IH]; intros st; simpl; [done|].
  destruct (loop_body_frame w pe32 st) as (Hh & Hm & Ho).
  destruct (IH (loop_body w pe32 st)) as (Hh' & Hm' & Ho').
  by rewrite Hh', Hm', Ho', Hh, Hm, Ho.
Qed.

Lemma do_while_frame (w : World) (env : Env) (pe32 : PROCESSENTRY32W)
    (rest : list PROCESSENTRY32W) (st : State) :
  handles (do_while w env 0 pe32 rest st) = handles st
  ∧ heap (do_while w env 0 pe32 rest st) = heap st
  ∧ wcout (do_while w env 0 pe32 rest st) = wcout st.
Proof.
  destruct (do_while_prefix w rest env pe32 st) as (n & b & _ & -> & _).
  apply (process_entries_frame w (take (S n) (pe32 :: rest)) st).
Qed.

Lemma EnableDebugPrivilege_handles (w : World) (st : State) :
  (EnableDebugPrivilege w st).1 = true →
  handles (EnableDebugPrivilege w st).2 = handles st.
Proof.
  unfold EnableDebugPrivilege.
  repeat case_match; simpl; try done. by rewrite N.eqb_refl.
Qed.

Lemma token_left_open_leaks (w : World) (st : State) :
  token_left_open w →
  (EnableDebugPrivilege w st).1 = false
  ∧ length (handles (EnableDebugPrivilege w st).2) = S (length (handles st)).
Proof.
  intros (hToken & Htoken & Hlater). unfold EnableDebugPrivilege.
  rewrite Htoken.
  destruct Hlater as [->|(luid & -> & [->| ->])]; simpl; try done.
  by destruct (AdjustTokenPrivileges w hToken luid).
Qed.

Lemma GetProcessDetails_handles (w : World) (env : Env) (st : State) :
  handles (GetProcessDetails w env st) = handles (EnableDebugPrivilege w st).2.
Proof.
  rewrite GetProcessDetails_unfold. simpl.
  destruct (EnableDebugPrivilege w st).1; simpl; [|done].
  destruct (CreateToolhelp32Snapshot w) as [hSnap|]; simpl; [|done].
  destruct (Process32 w hSnap) as [|pe32 rest]; simpl.
  - by rewrite N.eqb_refl.
  - destruct (do_while_frame w env pe32 rest
                (open_handle hSnap (EnableDebugPrivilege w st).2))
      as (-> & _).
    simpl. by rewrite N.eqb_refl.
Qed.

(** X1: the reader closes the process handle it opened on every one
    of its return paths, and it neither invokes the callback, nor writes
    a diagnostic, nor touches the cancellation flag. *)
Theorem reader_leaves_no_handle (w : World) (dwPid : DWORD) (p : pointer)
    (name : wstring) (size : N) (st : State) :
  handles (GetProcessCommandLine w dwPid p name size st).2 = handles st
  ∧ calls (GetProcessCommandLine w dwPid p name size st).2 = calls st
  ∧ wcout (GetProcessCommandLine w dwPid p name size st).2 = wcout st
  ∧ cancelRequested (GetProcessCommandLine w dwPid p name size st).2
    = cancelRequested st.
Proof.
  destruct (GetProcessCommandLine_frame w dwPid p name size st)
    as (Hflag & Hout & Hcalls & Hhandles).
  done.
Qed.

(** X2: whatever the system does and whenever cancellation is
    requested, a pass returns with the heap exactly as it found it:
    every command-line block it allocated has been released. *)
Theorem pass_releases_every_buffer (w : World) (env : Env) (st : State) :
  heap (GetProcessDetails w env st) = heap st.
Proof.
  destruct (EnableDebugPrivilege_frame w st) as (_ & _ & Hheap & _).
  simpl in Hheap. rewrite GetProcessDetails_unfold. simpl.
  destruct (EnableDebugPrivilege w st).1; simpl; [|done].
  destruct (CreateToolhelp32Snapshot w) as [hSnap|]; simpl; [|done].
  destruct (Process32 w hSnap) as [|pe32 rest]; simpl; [done|].
  destruct (do_while_frame w env pe32 rest
              (open_handle hSnap (EnableDebugPrivilege w st).2))
    as (_ & -> & _).
  done.
Qed.

(** X3: the snapshot handle is closed on every path that created it,
    and no process handle survives an iteration: after a pass the open
    handles are those the elevation left, and when the elevation
    succeeded they are exactly the handles open before the pass. *)
Theorem pass_closes_its_handles (w : World) (env : Env) (st : State) :
  handles (GetProcessDetails w env st) = handles (EnableDebugPrivilege w st).2
  ∧ ((EnableDebugPrivilege w st).1 = true →
     handles (GetProcessDetails w env st) = handles st).
Proof.
  split; [apply GetProcessDetails_handles|].
  intros Hok. rewrite GetProcessDetails_handles.
  by apply EnableDebugPrivilege_handles.
Qed.

Lemma pass_closes_its_handles_witness :
  (EnableDebugPrivilege w_admin initial_state).1 = true
  ∧ handles (GetProcessDetails w_admin never initial_state)
    = handles initial_state.
Proof.
  split; [reflexivity|].
  apply (pass_closes_its_handles w_admin never initial_state). reflexivity.
Defined.

(** X4: each pass whose elevation opens the token and then fails
    leaves one more handle open and invokes no callback, so [n] such
    passes in a row leave [n] handles open. *)
Theorem failed_elevations_accumulate (ps : list (World * Env)) :
  ∀ st, Forall (fun p => token_left_open p.1) ps →
        length (handles (run_passes ps st))
        = (length (handles st) + length ps)%nat
        ∧ calls (run_passes ps st) = calls st.
Proof.
  unfold run_passes.
  induction ps as [|[w env] ps IH]; intros st Hall; simpl.
  - split; [lia|done].
  - apply Forall_cons in Hall as [Hw Hps]. simpl in Hw.
    destruct (token_left_open_leaks w st Hw) as (Hfail & Hlen).
    destruct (IH (GetProcessDetails w env st) Hps) as (-> & ->).
    rewrite GetProcessDetails_handles, Hlen.
    split; [lia|].
    rewrite GetProcessDetails_unfold, Hfail. simpl.
    by destruct (EnableDebugPrivilege_frame w st) as (_ & _ & _ & ?).
Qed.

Lemma failed_elevations_accumulate_witness :
  let ps := [(w_not_all_assigned, never); (w_not_all_assigned, never)] in
  Forall (fun p => token_left_open p.1) ps
  ∧ length (handles (run_passes ps initial_state))
    = (length (handles initial_state) + length ps)%nat
  ∧ calls (run_passes ps initial_state) = calls initial_state.
Proof.
  assert (token_left_open w_not_all_assigned) as Hopen.
  { exists 50. split; [reflexivity|]. right. exists 20.
    split; [reflexivity|]. right. reflexivity. }
  assert (Forall (fun p : World * Env => token_left_open p.1)
            [(w_not_all_assigned, never); (w_not_all_assigned, never)])
    as Hall by (repeat constructor; exact Hopen).
  split; [exact Hall|].
  apply (failed_elevations_accumulate
           [(w_not_all_assigned, never); (w_not_all_assigned, never)]
           initial_state Hall).
Defined.

(** X5: a pass either writes a diagnostic or invokes the callback,
    never both and never neither: if it invokes the callback at least
    once it writes nothing to the output stream, and otherwise it
    invokes no callback and appends a non-empty diagnostic. *)
Theorem diagnostic_or_callbacks (w : World) (env : Env) (st : State) :
  (wcout (GetProcessDetails w env st) = wcout st
   ∧ ∃ c cs, calls (GetProcessDetails w env st) = calls st ++ c :: cs)
  ∨ (calls (GetProcessDetails w env st) = calls st
     ∧ ∃ d, d ≠ [] ∧ wcout (GetProcessDetails w env st) = wcout st ++ d).
Proof.
  destruct (EnableDebugPrivilege_frame w st) as (_ & Hout & _ & Hcalls).
  simpl in Hout, Hcalls. rewrite GetProcessDetails_unfold. simpl.
  destruct (EnableDebugPrivilege w st).1; simpl.
  2: { right. rewrite Hcalls, Hout. split; [done|].
       eexists. split; [|reflexivity]. done. }
  destruct (CreateToolhelp32Snapshot w) as [hSnap|]; simpl.
  2: { right. rewrite Hcalls, Hout. split; [done|].
       eexists. split; [|reflexivity]. done. }
  destruct (Process32 w hSnap) as [|pe32 rest]; simpl.
  { right. rewrite Hcalls, Hout, <- app_assoc. split; [done|].
    eexists. split; [|reflexivity]. done. }
  left.
  destruct (do_while_frame w env pe32 rest
              (open_handle hSnap (EnableDebugPrivilege w st).2))
    as (_ & _ & ->).
  split; [done|].
  destruct (do_while_prefix w rest env pe32
              (open_handle hSnap (EnableDebugPrivilege w st).2))
    as (n & b & _ & -> & _).
  destruct (loop_body_call w pe32
              (open_handle hSnap (EnableDebugPrivilege w st).2))
    as (c & Hc & _).
  destruct (process_entries_calls w (take n rest)
              (loop_body w pe32
                 (open_handle hSnap (EnableDebugPrivilege w st).2)))
    as (cs & Hcs & _).
  exists c, cs.
  change (calls (process_entries w (take n rest)
                   (loop_body w pe32
                      (open_handle hSnap (EnableDebugPrivilege w st).2)))
          = calls st ++ c :: cs).
  rewrite Hcs, Hc. simpl. by rewrite Hcalls, <- app_assoc.
Qed.

(** ** What a successful enrichment hands to the callback *)

Lemma GetProcessCommandLine_true_name (w : World) (dwPid : DWORD)
    (p : pointer) (name : wstring) (size : N) (st : State) :
  (GetProcessCommandLine w dwPid p name size st).1.1.1 = true →
  ∃ hProcess, OpenProcess w dwPid = Some hProcess
              ∧ (GetModuleBaseNameW w hProcess name size).1 ≠ 0.
Proof.
  unfold GetProcessCommandLine, new_wchar_t.
  repeat case_match; simpl; intros; simplify_eq.
  match goal with
  | Hname : GetModuleBaseNameW _ _ _ _ = _, Hcopied : (_ =? 0) = false |- _ =>
      eexists; split; [reflexivity|]; rewrite Hname; simpl;
      by apply N.eqb_neq
  end.
Qed.

(** The iteration of an entry whose enrichment succeeded. *)
Lemma loop_body_delivers (w : World) (pe32 : PROCESSENTRY32W) (st : State)
    (p' : pointer) (name' : wstring) (st' : State) :
  enrichment w pe32 st = (true, p', name', st') →
  ∃ a (data : list byte),
    p' = Ptr a ∧ heap st !! a = None
    ∧ calls (loop_body w pe32 st)
      = calls st ++ [ {| c_pid := th32ProcessID pe32;
                         c_process_name := name';
                         c_cmdline := Ptr a;
                         c_text := Some ((Some <$> data)
                                         ++ [Some x00; Some x00]) |} ].
Proof.
  unfold enrichment, snapshot_name, loop_body. intros Hcall.
  pose proof (GetProcessCommandLine_frame w (th32ProcessID pe32) NULL
                (wcsncpy_s_TRUNCATE (L "<unknown>") MAX_PATH (szExeFile pe32))
                MAX_PATH st) as Hframe.
  rewrite Hcall in *. simpl in Hframe. destruct Hframe as (_ & _ & Hcalls & _).
  apply GetProcessCommandLine_true in Hcall
    as (h & addr & upp & bytes & a & _ & _ & Hread & -> & Hfresh & Hheap).
  apply ReadProcessMemory_length in Hread.
  rewrite (terminated_block bytes _ Hread) in Hheap.
  do 2 eexists. split; [done|]. split; [done|].
  simpl. by rewrite Hheap, lookup_insert_eq, Hcalls.
Qed.

(** X6: when the enrichment of an entry succeeds, the callback is handed
    a pointer to a block that did not exist before the iteration, that
    is fully written and terminated while the callback runs, and that is
    no longer allocated when the iteration ends: the command line is
    valid during the callback only. *)
Theorem command_line_lives_during_callback (w : World)
    (pe32 : PROCESSENTRY32W) (st : State) :
  succeeded (enrichment w pe32 st) = true →
  ∃ c a (data : list byte),
    calls (loop_body w pe32 st) = calls st ++ [c]
    ∧ c_pid c = th32ProcessID pe32
    ∧ c_cmdline c = Ptr a
    ∧ c_text c = Some ((Some <$> data) ++ [Some x00; Some x00])
    ∧ heap st !! a = None
    ∧ heap (loop_body w pe32 st) !! a = None.
Proof.
  unfold succeeded. intros Hok.
  destruct (enrichment w pe32 st) as [[[ok p'] name'] st'] eqn:Hcall.
  simpl in Hok. subst ok.
  destruct (loop_body_delivers w pe32 st p' name' st' Hcall)
    as (a & data & -> & Hfresh & Hcalls).
  destruct (loop_body_frame w pe32 st) as (_ & Hheap & _).
  eexists _, a, data. split; [exact Hcalls|]. simpl.
  by rewrite Hheap.
Qed.

Lemma command_line_lives_during_callback_witness :
  let pe32 := {| th32ProcessID := 812; szExeFile := L "cmd.exe" |} in
  succeeded (enrichment w_admin pe32 initial_state) = true
  ∧ ∃ c a (data : list byte),
      calls (loop_body w_admin pe32 initial_state)
      = calls initial_state ++ [c]
      ∧ c_pid c = th32ProcessID pe32
      ∧ c_cmdline c = Ptr a
      ∧ c_text c = Some ((Some <$> data) ++ [Some x00; Some x00])
      ∧ heap initial_state !! a = None
      ∧ heap (loop_body w_admin pe32 initial_state) !! a = None.
Proof.
  split; [vm_compute; reflexivity|].
  apply (command_line_lives_during_callback w_admin
           {| th32ProcessID := 812; szExeFile := L "cmd.exe" |}
           initial_state).
  vm_compute; reflexivity.
Defined.

(** X7: when the enrichment of an entry succeeds, the process name the
    callback receives is the one the module-name call wrote over the
    snapshot name, and that call reported at least one unit copied. *)
Theorem successful_enrichment_name (w : World) (pe32 : PROCESSENTRY32W)
    (st : State) :
  succeeded (enrichment w pe32 st) = true →
  ∃ hProcess c,
    OpenProcess w (th32ProcessID pe32) = Some hProcess
    ∧ (GetModuleBaseNameW w hProcess (snapshot_name pe32) MAX_PATH).1 ≠ 0
    ∧ calls (loop_body w pe32 st) = calls st ++ [c]
    ∧ c_process_name c
      = (GetModuleBaseNameW w hProcess (snapshot_name pe32) MAX_PATH).2.
Proof.
  unfold succeeded, enrichment. intros Hok.
  destruct (GetProcessCommandLine_true_name w (th32ProcessID pe32) NULL
              (snapshot_name pe32) MAX_PATH st Hok) as (h & Hopen & Hcopied).
  pose proof (GetProcessCommandLine_name w (th32ProcessID pe32) NULL
                (snapshot_name pe32) MAX_PATH st) as Hname.
  rewrite Hopen in Hname.
  destruct (GetProcessCommandLine w (th32ProcessID pe32) NULL
              (snapshot_name pe32) MAX_PATH st)
    as [[[ok p'] name'] st'] eqn:Hcall.
  simpl in Hok, Hname. subst ok.
  destruct (loop_body_delivers w pe32 st p' name' st' Hcall)
    as (a & data & _ & _ & Hcalls).
  exists h. eexists. do 2 (split; [done|]). split; [exact Hcalls|].
  exact Hname.
Qed.

Lemma successful_enrichment_name_witness :
  let pe32 := {| th32ProcessID := 812; szExeFile := L "cmd.exe" |} in
  succeeded (enrichment w_admin pe32 initial_state) = true
  ∧ ∃ hProcess c,
      OpenProcess w_admin (th32ProcessID pe32) = Some hProcess
      ∧ (GetModuleBaseNameW w_admin hProcess (snapshot_name pe32)
           MAX_PATH).1 ≠ 0
      ∧ calls (loop_body w_admin pe32 initial_state)
        = calls initial_state ++ [c]
      ∧ c_process_name c
        = (GetModuleBaseNameW w_admin hProcess (snapshot_name pe32)
             MAX_PATH).2.
Proof.
  split; [vm_compute; reflexivity|].
  apply (successful_enrichment_name w_admin
           {| th32ProcessID := 812; szExeFile := L "cmd.exe" |}
           initial_state).
  vm_compute; reflexivity.
Defined.

(** X8: the block a successful read leaves, for the process opened
    for [dwPid], has exactly the size that was allocated,
    [Length / 2 + 1] units, which exceeds the [Length] bytes copied into
    it, for even and odd [Length] alike.  The terminator occupies the
    last unit of the block, unit [Length / 2]; every byte of the block
    has been written; and each byte before the terminator is the byte
    read from the target at that offset. *)
Theorem command_line_block_size (w : World) (dwPid : DWORD) (p : pointer)
    (name : wstring) (size : N) (st : State)
    (p' : pointer) (name' : wstring) (st' : State) :
  GetProcessCommandLine w dwPid p name size st = (true, p', name', st') →
  ∃ hProcess upp bytes a blk,
    reaches_descriptor w dwPid name size hProcess upp
    ∧ ReadProcessMemory w hProcess (Buffer (CommandLine upp))
        (Length (CommandLine upp)) = Some bytes
    ∧ p' = Ptr a
    ∧ heap st' !! a = Some blk
    ∧ length blk
      = N.to_nat (sizeof_wchar_t
                  * (Length (CommandLine upp) / sizeof_wchar_t + 1))
    ∧ (N.to_nat (Length (CommandLine upp)) < length blk)%nat
    ∧ (N.to_nat (sizeof_wchar_t
                 * (Length (CommandLine upp) / sizeof_wchar_t) + 1)
       = length blk - 1)%nat
    ∧ blk !! N.to_nat (sizeof_wchar_t
                       * (Length (CommandLine upp) / sizeof_wchar_t))
      = Some (Some x00)
    ∧ blk !! N.to_nat (sizeof_wchar_t
                       * (Length (CommandLine upp) / sizeof_wchar_t) + 1)
      = Some (Some x00)
    ∧ Forall is_Some blk
    ∧ ∀ i b,
        (i < N.to_nat (sizeof_wchar_t
                       * (Length (CommandLine upp) / sizeof_wchar_t)))%nat →
        bytes !! i = Some b →
        blk !! i = Some (Some b).
Proof.
  intros Hcall.
  apply GetProcessCommandLine_true_chain in Hcall
    as (h & upp & bytes & a & Hreach & Hread & -> & _ & ->).
  pose proof (ReadProcessMemory_length _ _ _ _ _ Hread) as Hlen.
  exists h, upp, bytes, a. eexists.
  do 3 (split; [done|]).
  rewrite lookup_insert_eq, (terminated_block bytes _ Hlen).
  split; [done|].
  set (len := Length (CommandLine upp)) in *.
  assert (length (Some <$> take (N.to_nat (sizeof_wchar_t
                                            * (len / sizeof_wchar_t))) bytes)
          = N.to_nat (sizeof_wchar_t * (len / sizeof_wchar_t))) as Hdata.
  { rewrite length_fmap, length_take, Hlen. unfold sizeof_wchar_t.
    destruct (half_length len); lia. }
  assert (N.to_nat (sizeof_wchar_t * (len / sizeof_wchar_t) + 1)
          = S (N.to_nat (sizeof_wchar_t * (len / sizeof_wchar_t)))) as Hnext
    by lia.
  rewrite length_app, Hdata. simpl length.
  split; [unfold sizeof_wchar_t; lia|].
  split; [unfold sizeof_wchar_t in *; destruct (half_length len); lia|].
  split; [lia|].
  split; [by rewrite lookup_app_r, Hdata, Nat.sub_diag by lia|].
  split.
  { rewrite Hnext, lookup_app_r by lia.
    rewrite Hdata. by replace (S _ - _)%nat with 1%nat by lia. }
  split.
  { apply Forall_app. split.
    - apply Forall_fmap, Forall_true. intros b. by eexists.
    - repeat constructor; by eexists. }
  intros i b Hi Hb.
  rewrite lookup_app_l by lia.
  by rewrite list_lookup_fmap, lookup_take_lt, Hb by done.
Qed.

Lemma command_line_block_size_witness :
  let r := GetProcessCommandLine w_odd_length 812 NULL (L "cmd.exe") MAX_PATH
             initial_state in
  r = (true, r.1.1.2, r.1.2, r.2)
  ∧ ∃ hProcess upp bytes a blk,
      reaches_descriptor w_odd_length 812 (L "cmd.exe") MAX_PATH hProcess upp
      ∧ ReadProcessMemory w_odd_length hProcess (Buffer (CommandLine upp))
          (Length (CommandLine upp)) = Some bytes
      ∧ r.1.1.2 = Ptr a
      ∧ heap r.2 !! a = Some blk
      ∧ length blk
        = N.to_nat (sizeof_wchar_t
                    * (Length (CommandLine upp) / sizeof_wchar_t + 1))
      ∧ (N.to_nat (Length (CommandLine upp)) < length blk)%nat
      ∧ (N.to_nat (sizeof_wchar_t
                   * (Length (CommandLine upp) / sizeof_wchar_t) + 1)
         = length blk - 1)%nat
      ∧ blk !! N.to_nat (sizeof_wchar_t
                         * (Length (CommandLine upp) / sizeof_wchar_t))
        = Some (Some x00)
      ∧ blk !! N.to_nat (sizeof_wchar_t
                         * (Length (CommandLine upp) / sizeof_wchar_t) + 1)
        = Some (Some x00)
      ∧ Forall is_Some blk
      ∧ ∀ i b,
          (i < N.to_nat (sizeof_wchar_t
                         * (Length (CommandLine upp) / sizeof_wchar_t)))%nat →
          bytes !! i = Some b →
          blk !! i = Some (Some b).
Proof.
  intros r. split; [vm_compute; reflexivity|].
  apply (command_line_block_size w_odd_length 812 NULL (L "cmd.exe") MAX_PATH
           initial_state r.1.1.2 r.1.2 r.2).
  vm_compute; reflexivity.
Defined.

(** ** Every call of a pass *)

Lemma failed_call_shape (w : World) (pe32 : PROCESSENTRY32W) (st : State) :
  succeeded (enrichment w pe32 st) = false →
  ∃ c, calls (loop_body w pe32 st) = calls st ++ [c]
       ∧ c_cmdline c = NULL ∧ c_text c = None.
Proof.
  unfold succeeded, enrichment, loop_body. fold (snapshot_name pe32).
  pose proof (GetProcessCommandLine_frame w (th32ProcessID pe32) NULL
                (snapshot_name pe32) MAX_PATH st) as (_ & _ & Hcalls & _).
  destruct (GetProcessCommandLine _ _ _ _ _ _) as [[[ok p] name] st'].
  simpl in *. intros ->. eexists.
  split; [simpl; rewrite Hcalls; reflexivity|]. done.
Qed.

Lemma loop_body_call_shape (w : World) (pe32 : PROCESSENTRY32W) (st : State) :
  ∃ c, calls (loop_body w pe32 st) = calls st ++ [c]
       ∧ absent_or_terminated c.
Proof.
  destruct (enrichment w pe32 st) as [[[ok p'] name'] st'] eqn:Hcall.
  destruct ok.
  - destruct (loop_body_delivers w pe32 st p' name' st' Hcall)
      as (a & data & _ & _ & Hcalls).
    eexists. split; [exact Hcalls|]. right. by exists a, data.
  - destruct (failed_call_shape w pe32 st) as (c & Hc & Hnull & Htext).
    { unfold succeeded. by rewrite Hcall. }
    exists c. split; [done|]. by left.
Qed.

Lemma process_entries_call_shapes (w : World) (es : list PROCESSENTRY32W) :
  ∀ st, ∃ cs, calls (process_entries w es st) = calls st ++ cs
              ∧ Forall absent_or_terminated cs.
Proof.
  unfold process_entries.
  induction es as [|pe32 es IH]; intros st; simpl.
  - exists []. by rewrite app_nil_r.
  - destruct (loop_body_call_shape w pe32 st) as (c & Hc & Hshape).
    destruct (IH (loop_body w pe32 st)) as (cs & Hcs & Hshapes).
    exists (c :: cs). rewrite Hcs, Hc, <- app_assoc.
    split; [done|]. by constructor.
Qed.

(** X9: whatever the system does and whenever cancellation is
    requested, every callback invocation of a pass is handed either a
    null command line, or a pointer to a block that at that moment is
    fully written and ends with a zero unit. *)
Theorem every_call_absent_or_terminated (w : World) (env : Env) (st : State) :
  ∃ cs, calls (GetProcessDetails w env st) = calls st ++ cs
        ∧ Forall absent_or_terminated cs.
Proof.
  destruct (EnableDebugPrivilege_frame w st) as (_ & _ & _ & Hcalls).
  simpl in Hcalls. rewrite GetProcessDetails_unfold. simpl.
  destruct (EnableDebugPrivilege w st).1; simpl.
  2: { exists []. by rewrite app_nil_r. }
  destruct (CreateToolhelp32Snapshot w) as [hSnap|]; simpl.
  2: { exists []. by rewrite app_nil_r. }
  destruct (Process32 w hSnap) as [|pe32 rest]; simpl.
  { exists []. by rewrite app_nil_r. }
  destruct (do_while_prefix w rest env pe32
              (open_handle hSnap (EnableDebugPrivilege w st).2))
    as (n & b & _ & -> & _).
  destruct (process_entries_call_shapes w (take (S n) (pe32 :: rest))
              (open_handle hSnap (EnableDebugPrivilege w st).2))
    as (cs & Hcs & Hshapes).
  exists cs. split; [|done].
  change (calls (process_entries w (take (S n) (pe32 :: rest))
                   (open_handle hSnap (EnableDebugPrivilege w st).2))
          = calls st ++ cs).
  rewrite Hcs. simpl. by rewrite Hcalls.
Qed.

(** ** When the elevation succeeds *)

(** X10: [EnableDebugPrivilege] returns true exactly when all four
    steps succeed: the token is opened, the privilege value is found,
    the adjustment call succeeds, and the last error is not
    ERROR_NOT_ALL_ASSIGNED.  When the token cannot be opened it returns
    false and the state is left as it was. *)
Theorem elevation_succeeds_iff (w : World) (st : State) :
  ((EnableDebugPrivilege w st).1 = true
   ↔ ∃ hToken luid,
       OpenProcessToken w = Some hToken
       ∧ LookupPrivilegeValue w = Some luid
       ∧ AdjustTokenPrivileges w hToken luid = true
       ∧ GetLastError_adjust w ≠ ERROR_NOT_ALL_ASSIGNED)
  ∧ (OpenProcessToken w = None → EnableDebugPrivilege w st = (false, st)).
Proof.
  unfold EnableDebugPrivilege. split; [|by intros ->].
  destruct (OpenProcessToken w) as [hToken|]; simpl.
  2: { split; [done|]. by intros (? & ? & ? & _). }
  destruct (LookupPrivilegeValue w) as [luid|]; simpl.
  2: { split; [done|]. by intros (? & ? & _ & ? & _). }
  destruct (AdjustTokenPrivileges w hToken luid) eqn:Hadj; simpl.
  2: { split; [done|]. intros (h & l & Hh & Hl & Ha & _).
       simplify_eq. congruence. }
  destruct (GetLastError_adjust w =? ERROR_NOT_ALL_ASSIGNED) eqn:Herr; simpl.
  - apply N.eqb_eq in Herr. split; [done|].
    by intros (? & ? & _ & _ & _ & Hne).
  - apply N.eqb_neq in Herr. split; [|done]. intros _.
    by exists hToken, luid.
Qed.

Lemma elevation_succeeds_iff_witness :
  OpenProcessToken w_denied = None
  ∧ EnableDebugPrivilege w_denied initial_state = (false, initial_state).
Proof.
  split; [reflexivity|].
  apply (elevation_succeeds_iff w_denied initial_state). reflexivity.
Defined.

(** ** A request that comes with the last entry *)

Lemma flag_after_quiet (env : Env) (k : nat) :
  (∀ j, (j ≤ k)%nat → env j = false) → flag_after env false k = false.
Proof.
  induction k as [|k IH]; intros Hquiet; simpl.
  - apply Hquiet. lia.
  - rewrite IH by (intros j Hj; apply Hquiet; lia). apply Hquiet. lia.
Qed.

Lemma do_while_last_flag (w : World) (rest : list PROCESSENTRY32W) :
  ∀ env pe32 st,
    (∀ j, (j < length rest)%nat →
          flag_after env (cancelRequested st) j = false) →
    cancelRequested (do_while w env 0 pe32 rest st)
    = flag_after env (cancelRequested st) (length rest).
Proof.
  induction rest as [|next rest IH]; intros env pe32 st Hnone.
  - destruct (loop_body_call w pe32 st) as (_ & _ & _ & Hflag).
    simpl. by rewrite in_flight_flag, Hflag.
  - destruct (loop_body_call w pe32 st) as (_ & _ & _ & Hflag).
    assert (cancelRequested (in_flight env 0 (loop_body w pe32 st)) = false)
      as Hgo.
    { rewrite in_flight_flag, Hflag. apply (Hnone O). simpl. lia. }
    simpl length. rewrite flag_after_shift.
    simpl do_while. rewrite Hgo, do_while_shift, IH.
    + rewrite Hgo. rewrite in_flight_flag, Hflag in Hgo. by rewrite Hgo.
    + intros j Hj. rewrite Hgo.
      specialize (Hnone (S j) ltac:(simpl; lia)).
      rewrite in_flight_flag, Hflag in Hgo.
      by rewrite flag_after_shift, Hgo in Hnone.
Qed.

(** X11: a cancellation request that arrives only while the last
    snapshot entry is in flight does not shorten the pass: the callback
    is invoked for every entry exactly as if nobody had asked; but the
    pass returns with the flag set, and the flag stays set for the next
    pass. *)
Theorem request_with_last_entry (w : World) (env : Env) (st : State)
    (hSnap : HANDLE) (es : list PROCESSENTRY32W) :
  (EnableDebugPrivilege w st).1 = true →
  CreateToolhelp32Snapshot w = Some hSnap →
  Process32 w hSnap = es →
  es ≠ [] →
  cancelRequested st = false →
  (∀ j, (S j < length es)%nat → env j = false) →
  env (length es - 1)%nat = true →
  calls (GetProcessDetails w env st) = calls (GetProcessDetails w never st)
  ∧ (∃ cs, calls (GetProcessDetails w env st) = calls st ++ cs
           ∧ c_pid <$> cs = th32ProcessID <$> es)
  ∧ cancelRequested (GetProcessDetails w env st) = true
  ∧ cancelRequested (GetProcessDetails w never st) = false.
Proof.
  intros Hok Hsnap Hes Hne Hclear Hquiet Hlast.
  destruct es as [|pe32 rest]; [done|].
  rewrite !(GetProcessDetails_pass w _ st hSnap pe32 rest Hok Hsnap Hes).
  destruct (EnableDebugPrivilege_frame w st) as (Hflag & _ & _ & Hcalls).
  simpl in Hflag, Hcalls.
  set (st1 := open_handle hSnap (EnableDebugPrivilege w st).2).
  assert (cancelRequested st1 = false) as Hclear1
    by (subst st1; simpl; congruence).
  assert (∀ j, (j < length rest)%nat →
               flag_after env (cancelRequested st1) j = false) as Hnone.
  { intros j Hj. rewrite Hclear1. apply flag_after_quiet.
    intros i Hi. apply Hquiet. simpl. lia. }
  assert (∀ j, (j < length rest)%nat →
               flag_after never (cancelRequested st1) j = false) as Hnever.
  { intros j Hj. rewrite Hclear1. by apply flag_after_quiet. }
  destruct (do_while_prefix w rest env pe32 st1) as (n & b & _ & Hrun & Hall).
  destruct (do_while_prefix w rest never pe32 st1)
    as (n' & b' & _ & Hrun' & Hall').
  rewrite (Hall Hnone) in Hrun. rewrite (Hall' Hnever) in Hrun'.
  rewrite take_ge in Hrun, Hrun' by done.
  destruct (process_entries_calls w (pe32 :: rest) st1) as (cs & Hcs & Hpids).
  split; [by rewrite Hrun, Hrun'|]. split.
  - exists cs. split; [|done]. rewrite Hrun.
    change (calls (process_entries w (pe32 :: rest) st1) = calls st ++ cs).
    rewrite Hcs. subst st1. simpl. by rewrite Hcalls.
  - change (cancelRequested (CloseHandle hSnap ?s))
      with (cancelRequested s).
    rewrite (do_while_last_flag w rest env pe32 st1 Hnone).
    rewrite do_while_flag_never, Hclear1. split; [|done].
    simpl in Hlast. rewrite Nat.sub_0_r in Hlast.
    destruct rest as [|next rest]; simpl in Hlast |- *; rewrite Hlast;
      [done|apply orb_true_r].
Qed.

Lemma request_with_last_entry_witness :
  let env : Env := fun i => Nat.eqb i 2 in
  (EnableDebugPrivilege w_admin initial_state).1 = true
  ∧ CreateToolhelp32Snapshot w_admin = Some 100
  ∧ Process32 w_admin 100 = sample_entries
  ∧ sample_entries ≠ []
  ∧ cancelRequested initial_state = false
  ∧ (∀ j, (S j < length sample_entries)%nat → env j = false)
  ∧ env (length sample_entries - 1)%nat = true
  ∧ calls (GetProcessDetails w_admin env initial_state)
    = calls (GetProcessDetails w_admin never initial_state)
  ∧ (∃ cs, calls (GetProcessDetails w_admin env initial_state)
           = calls initial_state ++ cs
           ∧ c_pid <$> cs = th32ProcessID <$> sample_entries)
  ∧ cancelRequested (GetProcessDetails w_admin env initial_state) = true
  ∧ cancelRequested (GetProcessDetails w_admin never initial_state) = false.
Proof.
  assert (∀ j, (S j < length sample_entries)%nat → Nat.eqb j 2 = false)
    as Hquiet.
  { intros j Hj. simpl in Hj. destruct j as [|[|j]]; [done|done|lia]. }
  do 3 (split; [reflexivity|]). split; [discriminate|].
  split; [reflexivity|]. split; [exact Hquiet|]. split; [reflexivity|].
  apply (request_with_last_entry w_admin (fun i => Nat.eqb i 2) initial_state
           100 sample_entries); try reflexivity; try discriminate.
  exact Hquiet.
Defined.
